(** * netdoc: discovery and ingestion pipeline

    A shallow embedding of three source files of the repository:

    - [netdoc/ingestors/netmiko_cisco_ios_show_inventory.py]  (module [ShowInventory])
    - [scripts/log_ingest.py]                                 (module [LogIngest])
    - [netdoc/discoverers/json_vmware_vsphere.py]             (module [Vsphere])

    Python code that touches the database is written in a state-and-exception
    monad over [World]; a raised exception keeps the world as it was at the
    point of the raise (nothing is rolled back). *)

From Stdlib Require Import ZArith String Ascii List Bool Lia Sorted.
From stdpp Require Import base option list gmap strings fin_maps.

Local Open Scope string_scope.
Local Open Scope Z_scope.

(** ** Python values and exceptions *)

Inductive exn : Type :=
  | AttributeError
  | IndexError
  | UnboundLocalError
  | JSONDecodeError
  | DoesNotExist.

Inductive res (A : Type) : Type :=
  | Ok (a : A)
  | Raise (e : exn).
Arguments Ok {A} a.
Arguments Raise {A} e.

(** [str.lower()], on the ASCII range. *)
Definition lower_ascii (c : ascii) : ascii :=
  let n := nat_of_ascii c in
  if (Nat.leb 65 n && Nat.leb n 90)%bool then ascii_of_nat (n + 32) else c.

Fixpoint lower (s : string) : string :=
  match s with
  | EmptyString => EmptyString
  | String c r => String (lower_ascii c) (lower r)
  end.

(** [sub in s] for strings. *)
Fixpoint contains (sub s : string) : bool :=
  (String.prefix sub s
   || match s with
      | EmptyString => false
      | String _ r => contains sub r
      end)%bool.

(** Truth value of [d.get(k)] when the values of [d] are strings: [None] and
    the empty string are false. *)
Definition truthy (v : option string) : bool :=
  match v with
  | Some s => negb (String.eqb s "")
  | None => false
  end.

(** ** The database schema the three files share *)

(** One record of a parsed output: a mapping from column name to text. *)
Abbreviation Item := (gmap string string).

Record Device : Type := mkDevice {
  serial : option string;
  manufacturer : option string;
  model_keyword : option string;
}.

Record Discoverable : Type := mkDiscoverable {
  disc_id : Z;
  address : string;
  discovered : bool;
  device : Device;
}.

(** The [details] dictionary built by [multiple_tasks]. *)
Record Details : Type := mkDetails {
  det_command : string;
  det_template : string;
  det_order : Z;
  det_enable : bool;
  det_supported : bool;
  det_verify_cert : option bool;
}.

Record DiscoveryLog : Type := mkLog {
  log_id : Z;
  discoverable_id : Z;
  command : string;
  template : string;
  order : Z;
  raw_output : string;
  details : Details;
  parsed : bool;
  parsed_output : list Item;
  ingested : bool;
}.

Record World : Type := mkWorld {
  discoverables : list Discoverable;
  logs : list DiscoveryLog;
}.

(** ** State and exceptions *)

Definition M (A : Type) : Type := World -> res A * World.

Definition ret {A} (a : A) : M A := fun w => (Ok a, w).
Definition raise {A} (e : exn) : M A := fun w => (Raise e, w).
Definition bind {A B} (m : M A) (k : A -> M B) : M B :=
  fun w =>
    match m w with
    | (Ok a, w') => k a w'
    | (Raise e, w') => (Raise e, w')
    end.
Definition modify (f : World -> World) : M unit := fun w => (Ok tt, f w).
Definition gets {A} (f : World -> A) : M A := fun w => (Ok (f w), w).
Definition lift {A} (r : res A) : M A := fun w => (r, w).

Notation "'let!' x ':=' m 'in' k" := (bind m (fun x => k))
  (at level 10, x name, m at level 100, k at level 200).
Notation "m '>>' k" := (bind m (fun _ => k))
  (at level 60, right associativity).

(** ** Model operations (Django ORM and [netdoc.schemas]) *)

Definition set_ingested (b : bool) (l : DiscoveryLog) : DiscoveryLog :=
  mkLog (log_id l) (discoverable_id l) (command l) (template l) (order l)
        (raw_output l) (details l) (parsed l) (parsed_output l) b.

Definition set_device (d : Device) (o : Discoverable) : Discoverable :=
  mkDiscoverable (disc_id o) (address o) (discovered o) d.

Definition set_discovered (b : bool) (o : Discoverable) : Discoverable :=
  mkDiscoverable (disc_id o) (address o) b (device o).

Definition has_log (i : Z) (ls : list DiscoveryLog) : bool :=
  existsb (fun r => Z.eqb (log_id r) i) ls.

(** [log.save()]: the row with the object's primary key is overwritten by the
    object; a row is inserted when there is none. *)
Definition save_rows (l : DiscoveryLog) (ls : list DiscoveryLog) : list DiscoveryLog :=
  if has_log (log_id l) ls
  then map (fun r => if Z.eqb (log_id r) (log_id l) then l else r) ls
  else (ls ++ [l])%list.

Definition log_save (l : DiscoveryLog) : M unit :=
  modify (fun w => mkWorld (discoverables w) (save_rows l (logs w))).

(** [log.discoverable]: the row the foreign key points to. *)
Definition discoverable_by_id (i : Z) (w : World) : option Discoverable :=
  find (fun o => Z.eqb (disc_id o) i) (discoverables w).

Definition log_discoverable (l : DiscoveryLog) : M Discoverable :=
  fun w =>
    match discoverable_by_id (discoverable_id l) w with
    | Some o => (Ok o, w)
    | None => (Raise DoesNotExist, w)
    end.

(** Modelled from the spec: [netdoc.schemas.device.update] is not among the
    sources.  Section 4.3 describes the write as "apply field updates from the
    new data (new data always wins over stale fields ...), no field-level merge
    logic beyond set if present in source": a field is overwritten by the value
    supplied and left alone when the value supplied is [None]. *)
Definition device_write (s : option string) (m : string) (p : option string)
    (d : Device) : Device :=
  mkDevice (match s with Some _ => s | None => serial d end)
           (Some m)
           (match p with Some _ => p | None => model_keyword d end).

(** The Device object is reached through its Discoverable; the write lands on
    the row of that Discoverable. *)
Definition device_update (o : Discoverable) (s : option string) (m : string)
    (p : option string) : M unit :=
  modify (fun w =>
    mkWorld
      (map (fun r => if Z.eqb (disc_id r) (disc_id o)
                     then set_device (device_write s m p (device r)) r
                     else r)
           (discoverables w))
      (logs w)).

(** ** netmiko_cisco_ios_show_inventory.py *)

Module ShowInventory.

Definition MANUFACTURER : string := "Cisco".
Definition DEFAULT_MODEL : string := "Cisco Unknown device".

(** The local [part_number] is either the very object [DEFAULT_MODEL] or a
    value read from an item.  The source tests it with [is]: a string read
    from the parsed output is another object than the module constant, also
    when it spells the same text. *)
Inductive PartNumber : Type :=
  | DefaultModelObject
  | ItemValue (v : option string).

Definition is_DEFAULT_MODEL (p : PartNumber) : bool :=
  match p with
  | DefaultModelObject => true
  | ItemValue _ => false
  end.

Definition part_number_value (p : PartNumber) : option string :=
  match p with
  | DefaultModelObject => Some DEFAULT_MODEL
  | ItemValue v => v
  end.

(** The [for item in log.parsed_output] loop, with its [break].  The pair is
    ([part_serial_number], [part_number]). *)
Fixpoint scan_items (items : list Item) (sn : option string) (pn : PartNumber)
    : res (option string * PartNumber) :=
  match items with
  | [] => Ok (sn, pn)
  | item :: rest =>
      match item !! "name" with
      | None => Raise AttributeError
      | Some part_description =>
          if contains "chassis" (lower part_description)
          then Ok (item !! "sn", ItemValue (item !! "pid"))
          else scan_items rest sn pn
      end
  end.

(** [if part_number is DEFAULT_MODEL: item = log.parsed_output[0] ...] *)
Definition first_entry (items : list Item) (sn : option string) (pn : PartNumber)
    : res (option string * PartNumber) :=
  if is_DEFAULT_MODEL pn then
    match items with
    | [] => Raise IndexError
    | item :: _ =>
        if (truthy (item !! "name") && truthy (item !! "sn")
            && truthy (item !! "pid"))%bool
        then Ok (item !! "sn", ItemValue (item !! "pid"))
        else Ok (sn, pn)
    end
  else Ok (sn, pn).

(** The arguments [ingest] computes for [device.update]. *)
Definition part_of (items : list Item) : res (option string * PartNumber) :=
  match scan_items items None DefaultModelObject with
  | Ok (sn, pn) => first_entry items sn pn
  | Raise e => Raise e
  end.

Definition ingest (log : DiscoveryLog) : M DiscoveryLog :=
  let! device_o := log_discoverable log in
  let! part := lift (part_of (parsed_output log)) in
  device_update device_o (fst part) MANUFACTURER (part_number_value (snd part)) >>
  let log' := set_ingested true log in
  log_save log' >>
  ret log'.

(** A record that is not a chassis: it has a name, and the name, in lower
    case, does not contain "chassis". *)
Definition non_chassis (item : Item) : Prop :=
  exists n, item !! "name" = Some n /\ contains "chassis" (lower n) = false.

(** The Device [log.discoverable.device] in a given state of the database. *)
Definition device_of (log : DiscoveryLog) (w : World) : option Device :=
  device <$> discoverable_by_id (discoverable_id log) w.

End ShowInventory.

(** ** scripts/log_ingest.py *)

Module LogIngest.

(** The settings at the head of the script. *)
Record Config : Type := mkConfig {
  FILTERS : list string;
  LOGS : list Z;
  COMMAND : string;
  STOP_ON_ERROR : bool;
  REINGEST : bool;
}.

(** The values the file ships with. *)
Definition shipped : Config := mkConfig [] [2296] "" true false.

(** [order_by("order")]: rows with equal [order] keep their table order. *)
Fixpoint insert_by_order (l : DiscoveryLog) (ls : list DiscoveryLog)
    : list DiscoveryLog :=
  match ls with
  | [] => [l]
  | x :: r =>
      if Z.leb (order l) (order x) then l :: x :: r
      else x :: insert_by_order l r
  end.

Definition order_by_order (ls : list DiscoveryLog) : list DiscoveryLog :=
  fold_right insert_by_order [] ls.

Definition in_strings (s : string) (l : list string) : bool :=
  existsb (String.eqb s) l.

Definition in_ids (i : Z) (l : list Z) : bool := existsb (Z.eqb i) l.

(** [discoverable__address__in=FILTERS] *)
Definition address_in (w : World) (fs : list string) (l : DiscoveryLog) : bool :=
  match discoverable_by_id (discoverable_id l) w with
  | Some o => in_strings (address o) fs
  | None => false
  end.

(** The queryset [logs], evaluated when the [for] loop starts. *)
Definition queryset (cfg : Config) (w : World) : list DiscoveryLog :=
  let logs := order_by_order (List.filter parsed (logs w)) in
  let logs := match FILTERS cfg with
              | [] => logs
              | _ :: _ => List.filter (address_in w (FILTERS cfg)) logs
              end in
  let logs := if negb (REINGEST cfg)
              then List.filter (fun l => negb (ingested l)) logs
              else logs in
  let logs := match LOGS cfg with
              | [] => logs
              | _ :: _ => List.filter (fun l => in_ids (log_id l) (LOGS cfg)) logs
              end in
  let logs := if String.eqb (COMMAND cfg) ""
              then logs
              else List.filter (fun l => String.eqb (command l) (COMMAND cfg)) logs in
  logs.

(** What the script prints. *)
Inductive Line : Type :=
  | Ingesting (id : Z) (cmd : string) (discoverable : Z)
  | done_
  | failed_.

Section Script.

(** [netdoc.utils.log_ingest] is not among the sources: the script is read
    for any dispatcher that works on the database, returns the log object as
    it left it, or raises. *)
Variable log_ingest : DiscoveryLog -> M DiscoveryLog.

(** The [for log in logs] loop; the state is what was printed and the
    database. *)
Fixpoint ingest_loop (stop : bool) (ls : list DiscoveryLog)
    (out : list Line) (w : World) : res unit * (list Line * World) :=
  match ls with
  | [] => (Ok tt, (out, w))
  | log :: rest =>
      let out := (out ++ [Ingesting (log_id log) (command log) (discoverable_id log)])%list in
      match log_ingest log w with
      | (Ok log', w') =>
          let out := (out ++ [done_])%list in
          let log' := set_ingested true log' in
          ingest_loop stop rest out (snd (log_save log' w'))
      | (Raise e, w') =>
          let out := (out ++ [failed_])%list in
          if stop then (Raise e, (out, w'))
          else ingest_loop stop rest out w'
      end
  end.

Definition main (cfg : Config) (w : World) : res unit * (list Line * World) :=
  ingest_loop (STOP_ON_ERROR cfg) (queryset cfg w) [] w.

(** The logs the loop announced, read back from what was printed. *)
Definition announced (out : list Line) : list Z :=
  flat_map (fun ln => match ln with Ingesting i _ _ => [i] | _ => [] end) out.

Definition count_failed (out : list Line) : nat :=
  length (List.filter (fun ln => match ln with failed_ => true | _ => false end) out).

End Script.

End LogIngest.

(** ** discoverers/json_vmware_vsphere.py *)

Module Vsphere.

(** *** What pyVmomi hands to [api_query]

    The managed objects of the two container views, with the attributes the
    function reads.  [str(x)] of a managed object is given as the text it
    prints.  The vSphere API declares [portgroupKey] and [portKey] of a port
    connection optional; they are [None] when the connection carries none. *)

Record PhysicalNic : Type := mkPhysicalNic {
  pnic_key : string;
  pnic_device : string;
  pnic_mac : string;
}.

Record HostVirtualSwitch : Type := mkHostVirtualSwitch {
  vsw_key : string;
  vsw_name : string;
  vsw_pnic : list string;
  vsw_portgroup : list string;
}.

Record PortConnection : Type := mkPortConnection {
  portgroupKey : option string;
  portKey : option string;
}.

(** [hardware.backing]: it has an attribute [port], or [network] and
    [deviceName], or none of them (an opaque network, for one). *)
Inductive Backing : Type :=
  | DistributedVirtualPortBacking (port : PortConnection)
  | NetworkBacking (network : string) (deviceName : string)
  | OtherBacking.

(** [hardware.macAddress] raises [AttributeError] on a device that is not a
    network adapter. *)
Inductive VirtualDevice : Type :=
  | OtherDevice
  | EthernetCard (macAddress : string) (deviceInfo_label : string)
                 (connectable_connected : bool) (backing : Backing).

Record VirtualMachine : Type := mkVirtualMachine {
  vm_str : string;
  vm_name : string;
  vm_overallStatus : string;
  vm_powerState : string;
  vm_guestId : string;
  vm_guestFullName : string;
  vm_hostName : option string;
  vm_ipAddress : option string;
  vm_device : list VirtualDevice;
}.

Record HostPortGroup : Type := mkHostPortGroup {
  hpg_key : string;
  hpg_spec_name : string;
  hpg_vswitch : string;
  hpg_spec_vswitchName : string;
  hpg_spec_vlanId : Z;
}.

Record HostSystem : Type := mkHostSystem {
  host_str : string;
  host_name : string;
  host_parent_str : string;
  host_parent_name : string;
  host_vendor : string;
  host_model : string;
  host_overallStatus : string;
  host_managementServerIp : option string;
  host_product_name : string;
  host_product_fullName : string;
  host_pnic : list PhysicalNic;
  host_vswitch : list HostVirtualSwitch;
  host_vm : list VirtualMachine;
  host_portgroup : list HostPortGroup;
}.

(** A distributed port group; [dvpg_has_vlanId] is [hasattr(portgroup,
    "vlanId")]. *)
Record DVPortgroup : Type := mkDVPortgroup {
  dvpg_str : string;
  dvpg_name : string;
  dvpg_has_vlanId : bool;
  dvpg_default_vlanId : Z;
}.

Record DVSwitch : Type := mkDVSwitch {
  dvs_str : string;
  dvs_name : string;
  dvs_overallStatus : string;
  dvs_portgroup : list DVPortgroup;
}.

Record Content : Type := mkContent {
  view_hosts : list HostSystem;
  view_dvswitches : list DVSwitch;
}.

(** *** What [api_query] builds *)

Record nic_data : Type := mk_nic_data {
  nic_id : string;
  nic_name : string;
  nic_mac_address : string;
}.

Record vswitch_data : Type := mk_vswitch_data {
  vswitch_id : string;
  vswitch_name : string;
  vswitch_nics : list string;
  vswitch_portgroups : list string;
}.

(** A virtual NIC of a virtual machine. *)
Record vnic_data : Type := mk_vnic_data {
  mac_address : string;
  label : string;
  connected : string;
  switch_type : string;
  portgroup_id : option string;
  portgroup_name : option string;
  port : option string;
}.

Record guest_data : Type := mk_guest_data {
  type_id : string;
  type_name : string;
  hostname : option string;
  guest_address : option string;
}.

Record vm_data : Type := mk_vm_data {
  vmd_id : string;
  vmd_name : string;
  vmd_status : string;
  vmd_power_state : string;
  vmd_nics : list vnic_data;
  vmd_guest : guest_data;
}.

(** The dictionary of a host-local port group. *)
Record portgroup_data : Type := mk_portgroup_data {
  pg_id : string;
  pg_name : string;
  pg_vswitch_id : string;
  pg_vswitch_name : string;
  pg_vswitch_type : string;
  pg_vlan : Z;
}.

(** The dictionary line 168 builds under the name [porgroup_data]. *)
Record porgroup_data : Type := mk_porgroup_data {
  por_id : string;
  por_name : string;
  por_vlan : option Z;
}.

(** A [portgroup_data] dictionary is an object: the dictionaries that hold it
    hold a reference, and an assignment to one of its keys shows through all
    of them. *)
Definition loc : Type := nat.

Record host_data : Type := mk_host_data {
  hd_id : string;
  hd_name : string;
  hd_cluster_id : string;
  hd_cluster_name : string;
  hd_vendor : string;
  hd_model : string;
  hd_status : string;
  hd_management_ip : option string;
  hd_product_name : string;
  hd_product_fullname : string;
  hd_vswitches : gmap string vswitch_data;
  hd_portgroups : gmap string loc;
  hd_vms : gmap string vm_data;
  hd_nics : gmap string nic_data;
}.

Record dvswitch_data : Type := mk_dvswitch_data {
  dvd_id : string;
  dvd_name : string;
  dvd_status : string;
  dvd_portgroups : gmap string loc;
}.

(** The returned dictionary, with the store of the [portgroup_data] objects
    it refers to. *)
Record api_data : Type := mk_api_data {
  hosts_data : gmap string host_data;
  dvswitches_data : gmap string dvswitch_data;
  heap : list portgroup_data;
}.

(** [str(True)], [str(False)] *)
Definition str_bool (b : bool) : string := if b then "True" else "False".

(** *** The body of the [for host in hosts] loop *)

Definition physical_nics (pnics : list PhysicalNic) : gmap string nic_data :=
  fold_left
    (fun nics nic =>
       let nic_data := mk_nic_data (pnic_key nic) (pnic_device nic) (pnic_mac nic) in
       <[nic_id nic_data := nic_data]> nics)
    pnics ∅.

Definition vswitches (vs : list HostVirtualSwitch) : gmap string vswitch_data :=
  fold_left
    (fun acc vswitch =>
       let vswitch_data :=
         mk_vswitch_data (vsw_key vswitch) (vsw_name vswitch)
           (fold_left (fun l nic => (l ++ [nic])%list) (vsw_pnic vswitch) [])
           (fold_left (fun l pg => (l ++ [pg])%list) (vsw_portgroup vswitch) []) in
       <[vswitch_id vswitch_data := vswitch_data]> acc)
    vs ∅.

(** Lines 115-136: [None] is the [continue] of a device without a MAC
    address. *)
Definition vnic_of (hardware : VirtualDevice) : res (option vnic_data) :=
  match hardware with
  | OtherDevice => Ok None
  | EthernetCard mac lbl conn backing =>
      match backing with
      | DistributedVirtualPortBacking p =>
          (* Connected to dvSwitch *)
          Ok (Some (mk_vnic_data mac lbl (str_bool conn)
                      "dvswitch" (portgroupKey p) None (portKey p)))
      | NetworkBacking network deviceName =>
          (* Connected to vSwitch *)
          Ok (Some (mk_vnic_data mac lbl (str_bool conn)
                      "vswitch" (Some network) (Some deviceName) None))
      | OtherBacking => Raise AttributeError
      end
  end.

Fixpoint vnics (devices : list VirtualDevice) (nics : list vnic_data)
    : res (list vnic_data) :=
  match devices with
  | [] => Ok nics
  | hardware :: rest =>
      match vnic_of hardware with
      | Raise e => Raise e
      | Ok None => vnics rest nics
      | Ok (Some nic_data) => vnics rest (nics ++ [nic_data])%list
      end
  end.

Definition vm_data_of (vm : VirtualMachine) : res vm_data :=
  match vnics (vm_device vm) [] with
  | Raise e => Raise e
  | Ok nics =>
      Ok (mk_vm_data (vm_str vm) (vm_name vm) (vm_overallStatus vm)
            (vm_powerState vm) nics
            (mk_guest_data (vm_guestId vm) (vm_guestFullName vm)
               (vm_hostName vm) (vm_ipAddress vm)))
  end.

Fixpoint vms (l : list VirtualMachine) (acc : gmap string vm_data)
    : res (gmap string vm_data) :=
  match l with
  | [] => Ok acc
  | vm :: rest =>
      match vm_data_of vm with
      | Raise e => Raise e
      | Ok vm_data => vms rest (<[vmd_id vm_data := vm_data]> acc)
      end
  end.

(** The locals that outlive an iteration: the store of [portgroup_data]
    objects and the variable [portgroup_data] itself, unbound ([None]) until
    line 145 runs for the first time. *)
Record Locals : Type := mkLocals {
  objects : list portgroup_data;
  portgroup_data_var : option loc;
}.

Definition host_portgroups (pgs : list HostPortGroup) (st : Locals)
    : gmap string loc * Locals :=
  fold_left
    (fun acc portgroup =>
       let '(dict, st) := acc in
       let portgroup_data :=
         mk_portgroup_data (hpg_key portgroup) (hpg_spec_name portgroup)
           (hpg_vswitch portgroup) (hpg_spec_vswitchName portgroup)
           "vswitch" (hpg_spec_vlanId portgroup) in
       let l := length (objects st) in
       (<[pg_id portgroup_data := l]> dict,
        mkLocals (objects st ++ [portgroup_data])%list (Some l)))
    pgs (∅, st).

Definition host_data_of (host : HostSystem) (st : Locals)
    : res (host_data * Locals) :=
  let nics := physical_nics (host_pnic host) in
  let vsw := vswitches (host_vswitch host) in
  match vms (host_vm host) ∅ with
  | Raise e => Raise e
  | Ok vmd =>
      let '(pgs, st) := host_portgroups (host_portgroup host) st in
      Ok (mk_host_data (host_str host) (host_name host)
            (host_parent_str host) (host_parent_name host)
            (host_vendor host) (host_model host) (host_overallStatus host)
            (host_managementServerIp host)
            (host_product_name host) (host_product_fullName host)
            vsw pgs vmd nics,
          st)
  end.

Fixpoint hosts_loop (hosts : list HostSystem)
    (hosts_data : gmap string host_data) (st : Locals)
    : res (gmap string host_data * Locals) :=
  match hosts with
  | [] => Ok (hosts_data, st)
  | host :: rest =>
      match host_data_of host st with
      | Raise e => Raise e
      | Ok (host_data, st) =>
          hosts_loop rest (<[hd_id host_data := host_data]> hosts_data) st
      end
  end.

(** *** The [for dvswitch in dvswitches] loop

    Line 168 binds [porgroup_data]; lines 175 and 177 read [portgroup_data],
    the variable of the host loop. *)

Definition set_vlan (v : Z) (d : portgroup_data) : portgroup_data :=
  mk_portgroup_data (pg_id d) (pg_name d) (pg_vswitch_id d)
    (pg_vswitch_name d) (pg_vswitch_type d) v.

Fixpoint dv_portgroups (pgs : list DVPortgroup) (dict : gmap string loc)
    (st : Locals) : res (gmap string loc * Locals) :=
  match pgs with
  | [] => Ok (dict, st)
  | portgroup :: rest =>
      let porgroup_data :=
        mk_porgroup_data (dvpg_str portgroup) (dvpg_name portgroup) None in
      match portgroup_data_var st with
      | None => Raise UnboundLocalError
      | Some l =>
          match objects st !! l with
          | None => Raise UnboundLocalError
          | Some portgroup_data =>
              let portgroup_data :=
                if dvpg_has_vlanId portgroup
                then set_vlan (dvpg_default_vlanId portgroup) portgroup_data
                else portgroup_data in
              let st := mkLocals (<[l := portgroup_data]> (objects st)) (Some l) in
              dv_portgroups rest (<[pg_id portgroup_data := l]> dict) st
          end
      end
  end.

Fixpoint dvswitches_loop (dvs : list DVSwitch)
    (dvswitches_data : gmap string dvswitch_data) (st : Locals)
    : res (gmap string dvswitch_data * Locals) :=
  match dvs with
  | [] => Ok (dvswitches_data, st)
  | dvswitch :: rest =>
      match dv_portgroups (dvs_portgroup dvswitch) ∅ st with
      | Raise e => Raise e
      | Ok (pgs, st) =>
          let dvswitch_data :=
            mk_dvswitch_data (dvs_str dvswitch) (dvs_name dvswitch)
              (dvs_overallStatus dvswitch) pgs in
          dvswitches_loop rest
            (<[dvd_id dvswitch_data := dvswitch_data]> dvswitches_data) st
      end
  end.

(** [api_query], from the two container views on. *)
Definition api_query (content : Content) : res api_data :=
  match hosts_loop (view_hosts content) ∅ (mkLocals [] None) with
  | Raise e => Raise e
  | Ok (hosts_data, st) =>
      match dvswitches_loop (view_dvswitches content) ∅ st with
      | Raise e => Raise e
      | Ok (dvswitches_data, st) =>
          Ok (mk_api_data hosts_data dvswitches_data (objects st))
      end
  end.

(** The port groups a dictionary of references shows: each key with the
    object its reference points to. *)
Definition shown (h : list portgroup_data) (d : gmap string loc)
    : gmap string portgroup_data :=
  omap (fun l => h !! l) d.

(** The virtual NIC records of a returned dictionary. *)
Definition vnic_record (d : api_data) (n : vnic_data) : Prop :=
  exists h hd v vd,
    hosts_data d !! h = Some hd /\ hd_vms hd !! v = Some vd /\ In n (vmd_nics vd).

(** The two shapes of a record as the code builds them. *)
Definition dvswitch_shape (n : vnic_data) : Prop :=
  switch_type n = "dvswitch" /\ portgroup_name n = None.

Definition vswitch_shape (n : vnic_data) : Prop :=
  switch_type n = "vswitch" /\ is_Some (portgroup_id n) /\
  is_Some (portgroup_name n) /\ port n = None.

(** The distributed-switch shape with the port-group id and the port both
    present. *)
Definition dvswitch_shape_with_port (n : vnic_data) : Prop :=
  switch_type n = "dvswitch" /\ is_Some (portgroup_id n) /\
  is_Some (port n) /\ portgroup_name n = None.

(** Exactly one of the two shapes, and never a named port group together
    with a port. *)
Definition backing_shape (n : vnic_data) : Prop :=
  ((dvswitch_shape n /\ ~ vswitch_shape n) \/
   (vswitch_shape n /\ ~ dvswitch_shape n)) /\
  ~ (is_Some (portgroup_name n) /\ is_Some (port n)).

(** Every record of a virtual machine, of a host, has the shape. *)
Definition vm_ok (vd : vm_data) : Prop := Forall backing_shape (vmd_nics vd).

Definition host_ok (hd : host_data) : Prop :=
  map_Forall (fun _ vd => vm_ok vd) (hd_vms hd).

(** *** [discovery] *)

(** [details] as [multiple_tasks] builds it: [template] is [None] there, so
    the entry is the command. *)
Definition multiple_tasks_details (verify_cert : option bool) : Details :=
  let supported := true in
  let order := 0 in
  let template : option string := None in
  let command := "pyVmomi" in
  mkDetails command
    (match template with Some t => t | None => command end)
    order false supported verify_cert.

(** Modelled from the spec: [netdoc.schemas.discoverable.get] is not among the
    sources.  The address is the natural key of a Discoverable (section 3):
    the call returns the row with that address, [None] when there is none. *)
Definition discoverable_get (a : string) : M (option Discoverable) :=
  gets (fun w => find (fun o => String.eqb (address o) a) (discoverables w)).

(** Modelled from the spec: [discoverable.get(address, discovered=True)]
    followed by [discoverable.update], not among the sources, leave the
    Discoverable of that address with [discovered=true] (section 4.1). *)
Definition discoverable_mark_discovered (a : string) : M unit :=
  modify (fun w =>
    mkWorld
      (map (fun o => if String.eqb (address o) a then set_discovered true o else o)
           (discoverables w))
      (logs w)).

Definition next_log_id (ls : list DiscoveryLog) : Z :=
  1 + fold_right (fun l m => Z.max (log_id l) m) 0 ls.

(** Modelled from the spec: [netdoc.schemas.discoverylog.create] is not among
    the sources.  It appends one row to the log store, with the fields given,
    a fresh key and [parsed=false] (sections 4.1 and 6). *)
Definition discoverylog_create (cmd : string) (disc : Z) (raw : string)
    (tpl : string) (ord : Z) (det : Details) : M unit :=
  modify (fun w =>
    mkWorld (discoverables w)
      (logs w ++ [mkLog (next_log_id (logs w)) disc cmd tpl ord raw det
                        false [] false])%list).

Definition in_list (a : string) (l : list string) : bool :=
  existsb (String.eqb a) l.

Fixpoint for_each {A S : Type} (body : A -> S -> M S) (xs : list A) (s : S)
    : M S :=
  match xs with
  | [] => ret s
  | x :: rest => let! s' := body x s in for_each body rest s'
  end.

Section Discovery.

(** A nornir [Result]: [r_hostname] is [result.host.dict().get("hostname")],
    [r_result] what the task returned or the error it left. *)
Variable Payload : Type.

Record Result : Type := mkResult {
  r_name : string;
  r_hostname : string;
  r_failed : bool;
  r_result : Payload;
}.

(** [json.dumps] of a payload and [json.loads] of a result name ([None] when
    the name is not the text of a [details] dictionary). *)
Variable json_dumps : Payload -> string.
Variable json_loads : string -> option Details.

(** The locals [host_list] and [failed_host_list]. *)
Definition Lists : Type := (list string * list string)%type.

(** Lines 230-250, for one [result]. *)
Definition record_result (result : Result) (st : Lists) : M Lists :=
  let '(host_list, failed_host_list) := st in
  if String.eqb (r_name result) "multiple_tasks" then ret st
  else
    let addr := r_hostname result in
    let! found := discoverable_get addr in
    let! details := lift (match json_loads (r_name result) with
                          | Some d => Ok d
                          | None => Raise JSONDecodeError
                          end) in
    let! discoverable_o := lift (match found with
                                 | Some o => Ok o
                                 | None => Raise AttributeError
                                 end) in
    discoverylog_create (det_command details) (disc_id discoverable_o)
      (json_dumps (r_result result)) (det_template details)
      (det_order details) details >>
    let host_list :=
      if negb (in_list (address discoverable_o) host_list)
      then (host_list ++ [address discoverable_o])%list else host_list in
    let failed_host_list :=
      if (r_failed result
          && negb (in_list (address discoverable_o) failed_host_list))%bool
      then (failed_host_list ++ [address discoverable_o])%list
      else failed_host_list in
    ret (host_list, failed_host_list).

(** Lines 253-256. *)
Definition mark_hosts (host_list failed_host_list : list string) : M unit :=
  for_each
    (fun addr _ =>
       if negb (in_list addr failed_host_list)
       then discoverable_mark_discovered addr
       else ret tt)
    host_list tt.

(** [discovery], from [aggregated_results] on: the pairs of
    [aggregated_results.items()]. *)
Definition discovery (aggregated_results : list (string * list Result)) : M unit :=
  let! st := for_each
               (fun kv st => for_each record_result (snd kv) st)
               aggregated_results ([], []) in
  mark_hosts (fst st) (snd st).

(** The results of the queries: every entry but the task wrappers. *)
Definition is_query (r : Result) : bool :=
  negb (String.eqb (r_name r) "multiple_tasks").

Definition queries (aggregated_results : list (string * list Result))
    : list Result :=
  List.filter is_query (concat (map snd aggregated_results)).

(** A query result the loop can record: its host is a Discoverable of the
    database and its name is the text of a [details] dictionary. *)
Definition resolvable (w : World) (r : Result) : Prop :=
  is_Some (find (fun o => String.eqb (address o) (r_hostname r)) (discoverables w))
  /\ is_Some (json_loads (r_name r)).

(** The DiscoveryLog [l] is the one created for the query result [r]. *)
Definition created_for (w : World) (r : Result) (l : DiscoveryLog) : Prop :=
  exists o d,
    find (fun o => String.eqb (address o) (r_hostname r)) (discoverables w) = Some o /\
    json_loads (r_name r) = Some d /\
    discoverable_id l = disc_id o /\
    command l = det_command d /\
    template l = det_template d /\
    order l = det_order d /\
    raw_output l = json_dumps (r_result r) /\
    details l = d /\
    parsed l = false /\ ingested l = false.

(** Some query of host [a] was recorded, succeeded, failed. *)
Definition seen (a : string) (qs : list Result) : bool :=
  existsb (fun r => String.eqb a (r_hostname r)) qs.
Definition succeeded_for (a : string) (qs : list Result) : bool :=
  existsb (fun r => String.eqb a (r_hostname r) && negb (r_failed r))%bool qs.
Definition failed_for (a : string) (qs : list Result) : bool :=
  existsb (fun r => String.eqb a (r_hostname r) && r_failed r)%bool qs.

(** [host_list] and [failed_host_list] after the results [qs]. *)
Definition add_once (a : string) (l : list string) : list string :=
  if negb (in_list a l) then (l ++ [a])%list else l.

Definition track (qs : list Result) (st : Lists) : Lists :=
  fold_left
    (fun st r =>
       (add_once (r_hostname r) (fst st),
        if r_failed r then add_once (r_hostname r) (snd st) else snd st))
    qs st.

End Discovery.

(** The [discovered] flag of the Discoverable with address [a]. *)
Definition discovered_flag (a : string) (w : World) : option bool :=
  discovered <$> find (fun o => String.eqb (address o) a) (discoverables w).

(** The rows after the marking loop. *)
Definition marked (host_list failed_host_list : list string) (o : Discoverable)
    : Discoverable :=
  if (in_list (address o) host_list
      && negb (in_list (address o) failed_host_list))%bool
  then set_discovered true o else o.


Arguments mkResult {Payload}.
Arguments r_name {Payload}.
Arguments r_hostname {Payload}.
Arguments r_failed {Payload}.
Arguments r_result {Payload}.
Arguments record_result {Payload}.
Arguments discovery {Payload}.
Arguments queries {Payload}.
Arguments is_query {Payload}.
Arguments resolvable {Payload}.
Arguments created_for {Payload}.
Arguments seen {Payload}.
Arguments succeeded_for {Payload}.
Arguments failed_for {Payload}.
Arguments track {Payload}.

(** The reading that one successful query is enough: whenever a run
    completes, a host with a successful query is marked discovered. *)
Definition discovered_if_any_succeeded : Prop :=
  forall (Payload : Type) (json_dumps : Payload -> string)
         (json_loads : string -> option Details)
         (aggregated_results : list (string * list (Result Payload)))
         (w w' : World) (a : string),
    discovery json_dumps json_loads aggregated_results w = (Ok tt, w') ->
    succeeded_for a (queries aggregated_results) = true ->
    discovered_flag a w' = Some true.

End Vsphere.

(** ** Sample data *)

Module Examples.

Definition item (name descr pid sn : string) : Item :=
  list_to_map [("name", name); ("descr", descr); ("pid", pid); ("vid", "V01"); ("sn", sn)].

Definition chassis : Item := item "Chassis" "Cisco Catalyst chassis" "WS-C1" "ABC123".
Definition supervisor : Item := item "Supervisor 1" "Supervisor module" "WS-SUP" "SUP001".
Definition power_supply : Item := item "Power Supply 1" "AC power supply" "PWR-C1" "PWR001".
Definition switch_1 : Item := item "Switch 1" "Stack member" "WS-C2960" "FOC1234".

Definition pyvmomi : Details := mkDetails "pyVmomi" "pyVmomi" 0 false true (Some true).
Definition show_inventory : Details :=
  mkDetails "show inventory" "show inventory" 3 false true None.

Definition blank : Device := mkDevice None None None.

Definition host_1 : Discoverable := mkDiscoverable 1 "10.0.0.1" false blank.
Definition host_2 : Discoverable := mkDiscoverable 2 "10.0.0.2" false blank.

Definition inventory_log (id : Z) (disc : Z) (ing : bool) (items : list Item)
    : DiscoveryLog :=
  mkLog id disc "show inventory" "show inventory" 3 "" show_inventory true items ing.

Definition log_chassis : DiscoveryLog :=
  inventory_log 1 1 false [supervisor; chassis; power_supply].
Definition log_first : DiscoveryLog :=
  inventory_log 2 1 false [switch_1; power_supply].
Definition log_empty : DiscoveryLog := inventory_log 3 1 false [].
Definition log_other : DiscoveryLog :=
  inventory_log 4 2 false [chassis].

Definition world_1 : World :=
  mkWorld [host_1; host_2] [log_chassis; log_first; log_empty; log_other].

(** A vCenter with one host and one distributed switch. *)
Definition vm_web : Vsphere.VirtualMachine :=
  Vsphere.mkVirtualMachine "'vim.VirtualMachine:vm-101'" "web01" "green"
    "poweredOn" "ubuntu64Guest" "Ubuntu Linux (64-bit)"
    (Some "web01") (Some "192.0.2.10")
    [Vsphere.OtherDevice;
     Vsphere.EthernetCard "00:50:56:aa:bb:01" "Network adapter 1" true
       (Vsphere.NetworkBacking "'vim.Network:network-12'" "VM Network");
     Vsphere.EthernetCard "00:50:56:aa:bb:02" "Network adapter 2" true
       (Vsphere.DistributedVirtualPortBacking
          (Vsphere.mkPortConnection (Some "dvportgroup-10") (Some "12")));
     Vsphere.EthernetCard "00:50:56:aa:bb:03" "Network adapter 3" false
       (Vsphere.DistributedVirtualPortBacking
          (Vsphere.mkPortConnection (Some "dvportgroup-10") None))].

Definition pg_vm_network : Vsphere.HostPortGroup :=
  Vsphere.mkHostPortGroup "key-vim.host.PortGroup-VM Network" "VM Network"
    "key-vim.host.VirtualSwitch-vSwitch0" "vSwitch0" 0.

Definition esx (portgroups : list Vsphere.HostPortGroup) : Vsphere.HostSystem :=
  Vsphere.mkHostSystem "'vim.HostSystem:host-9'" "esx1.example.net"
    "'vim.ClusterComputeResource:domain-c7'" "Cluster1" "Dell Inc."
    "PowerEdge R640" "green" (Some "192.0.2.2") "VMware ESXi"
    "VMware ESXi 7.0.3 build-1"
    [Vsphere.mkPhysicalNic "key-vim.host.PhysicalNic-vmnic0" "vmnic0"
       "24:6e:96:00:00:01"]
    [Vsphere.mkHostVirtualSwitch "key-vim.host.VirtualSwitch-vSwitch0" "vSwitch0"
       ["key-vim.host.PhysicalNic-vmnic0"] ["key-vim.host.PortGroup-VM Network"]]
    [vm_web] portgroups.

Definition dvs_21 : Vsphere.DVSwitch :=
  Vsphere.mkDVSwitch "'vim.dvs.VmwareDistributedVirtualSwitch:dvs-21'" "DSwitch"
    "green"
    [Vsphere.mkDVPortgroup "'vim.dvs.DistributedVirtualPortgroup:dvportgroup-10'"
       "DPG-Prod" false 100].

Definition vcenter : Vsphere.Content :=
  Vsphere.mkContent [esx [pg_vm_network]] [dvs_21].

(** The same with no port group on the host. *)
Definition vcenter_bare : Vsphere.Content :=
  Vsphere.mkContent [esx []] [dvs_21].

(** The record [api_query] builds for "Network adapter 3". *)
Definition adapter_3 : Vsphere.vnic_data :=
  Vsphere.mk_vnic_data "00:50:56:aa:bb:03" "Network adapter 3" "False"
    "dvswitch" (Some "dvportgroup-10") None None.

(** The name nornir gives the query: [json.dumps(details)]. *)
Definition q (s : string) : string :=
  String "034"%char (s +:+ String "034"%char EmptyString).

Definition pyvmomi_name : string :=
  "{" +:+ q "command" +:+ ": " +:+ q "pyVmomi" +:+ ", "
      +:+ q "template" +:+ ": " +:+ q "pyVmomi" +:+ ", "
      +:+ q "order" +:+ ": 0, "
      +:+ q "enable" +:+ ": false, "
      +:+ q "supported" +:+ ": true, "
      +:+ q "verify_cert" +:+ ": true}".

(** [json.loads] on the names that occur in the samples. *)
Definition loads (s : string) : option Details :=
  if String.eqb s pyvmomi_name then Some (Vsphere.multiple_tasks_details (Some true))
  else None.

(** Payloads are given as their JSON text. *)
Definition dumps (s : string) : string := s.

(** A run in which host 10.0.0.1 has one query that succeeded and one that
    failed, and host 10.0.0.2 one query that succeeded. *)
Definition run_mixed : list (string * list (Vsphere.Result string)) :=
  [("10.0.0.1",
    [Vsphere.mkResult "multiple_tasks" "10.0.0.1" true "null";
     Vsphere.mkResult pyvmomi_name "10.0.0.1" false "{}";
     Vsphere.mkResult pyvmomi_name "10.0.0.1" true "Traceback"]);
   ("10.0.0.2",
    [Vsphere.mkResult "multiple_tasks" "10.0.0.2" false "null";
     Vsphere.mkResult pyvmomi_name "10.0.0.2" false "{}"])].

(** A database with the two hosts and no log. *)
Definition world_0 : World := mkWorld [host_1; host_2] [].

(** The script with no filter set, stopping at the first failure. *)
Definition replay : LogIngest.Config := LogIngest.mkConfig [] [] "" true false.
(** The same, continuing past failures. *)
Definition replay_on : LogIngest.Config := LogIngest.mkConfig [] [] "" false false.

(** A database whose logs are all ingested. *)
Definition world_done : World :=
  mkWorld [host_1; host_2]
    [inventory_log 1 1 true [supervisor; chassis]; inventory_log 4 2 true [chassis]].

End Examples.

(** ** Further notions on the inventory ingestor *)

Module InventoryTerms.

(** A record the loop of [ingest] breaks on: it has a name that, in lower
    case, contains "chassis". *)
Definition chassis_named (item : Item) : Prop :=
  exists n, item !! "name" = Some n /\ contains "chassis" (lower n) = true.

(** The test of line 32 on a record. *)
Definition usable (item : Item) : bool :=
  (truthy (item !! "name") && truthy (item !! "sn") && truthy (item !! "pid"))%bool.

(** A chassis record without a pid, after a module that has one. *)
Definition chassis_bare : Item :=
  list_to_map [("name", "CHASSIS slot 0"); ("sn", "XYZ789")].
Definition stack_blank : Item :=
  list_to_map [("name", "Switch 1"); ("descr", "Stack member"); ("pid", ""); ("sn", "FOC1234")].
Definition nameless : Item :=
  list_to_map [("descr", "Transceiver"); ("pid", "SFP-10G"); ("sn", "T001")].

Definition log_bare : DiscoveryLog :=
  Examples.inventory_log 5 1 false [Examples.supervisor; chassis_bare; Examples.chassis].
Definition log_blank : DiscoveryLog :=
  Examples.inventory_log 6 1 false [stack_blank; Examples.power_supply].
Definition log_nameless : DiscoveryLog :=
  Examples.inventory_log 7 1 false [Examples.supervisor; nameless; Examples.chassis].

End InventoryTerms.

(** ** Further notions on the replay script *)

Module ScriptTerms.

(** The order of two logs in the loop. *)
Definition by_order (a b : DiscoveryLog) : Prop := order a <= order b.

(** The number of "done" the script printed. *)
Definition count_done (out : list LogIngest.Line) : nat :=
  length (List.filter
            (fun ln => match ln with LogIngest.done_ => true | _ => false end) out).

(** How the database [wi] reached during a run relates to the database [w]
    the run started from, [done] being the ids of the logs ingested so far:
    a row keeps its id; it is untouched when its id is not in [done] and is
    ingested when it is.  A Discoverable keeps its id and address. *)
Definition same_row (done : list Z) (r0 ri : DiscoveryLog) : Prop :=
  log_id ri = log_id r0 /\
  (LogIngest.in_ids (log_id r0) done = false -> ri = r0) /\
  (LogIngest.in_ids (log_id r0) done = true -> ingested ri = true).

Definition same_host (o0 oi : Discoverable) : Prop :=
  disc_id oi = disc_id o0 /\ address oi = address o0.

Definition replayed (done : list Z) (w wi : World) : Prop :=
  Forall2 (same_row done) (logs w) (logs wi) /\
  Forall2 same_host (discoverables w) (discoverables wi).

(** A table out of order, with a log that is not parsed and one of another
    command. *)
Definition world_2 : World :=
  mkWorld [Examples.host_1; Examples.host_2]
    [mkLog 10 2 "show inventory" "show inventory" 7 "" Examples.show_inventory
           true [Examples.chassis] false;
     mkLog 11 1 "show version" "show version" 1 "" Examples.show_inventory
           true [] false;
     mkLog 12 1 "show inventory" "show inventory" 3 "" Examples.show_inventory
           false [] false;
     mkLog 13 1 "show inventory" "show inventory" 3 "" Examples.show_inventory
           true [Examples.switch_1] false].

(** The script set to the inventories of host 10.0.0.1. *)
Definition replay_host_1 : LogIngest.Config :=
  LogIngest.mkConfig ["10.0.0.1"] [] "show inventory" true false.

End ScriptTerms.

(** ** Further notions on [api_query] *)

Module VsphereTerms.

Import Vsphere.

(** The dictionary line 145 builds for a host port group. *)
Definition portgroup_record (portgroup : HostPortGroup) : portgroup_data :=
  mk_portgroup_data (hpg_key portgroup) (hpg_spec_name portgroup)
    (hpg_vswitch portgroup) (hpg_spec_vswitchName portgroup)
    "vswitch" (hpg_spec_vlanId portgroup).

(** The host port groups, the distributed port groups and the devices of the
    virtual machines, in the order the loops meet them. *)
Definition host_portgroups_of (content : Content) : list HostPortGroup :=
  flat_map host_portgroup (view_hosts content).

Definition dv_portgroups_of (content : Content) : list DVPortgroup :=
  flat_map dvs_portgroup (view_dvswitches content).

Definition devices_of_host (host : HostSystem) : list VirtualDevice :=
  flat_map vm_device (host_vm host).

Definition devices_of (content : Content) : list VirtualDevice :=
  flat_map devices_of_host (view_hosts content).

(** A network adapter whose backing has neither [port] nor [network]. *)
Definition bad_device (hardware : VirtualDevice) : bool :=
  match hardware with
  | EthernetCard _ _ _ OtherBacking => true
  | _ => false
  end.

(** A device with a MAC address. *)
Definition is_card (hardware : VirtualDevice) : bool :=
  match hardware with
  | EthernetCard _ _ _ _ => true
  | OtherDevice => false
  end.

(** The VLAN ids line 175 assigns, in order. *)
Definition written_vlans (content : Content) : list Z :=
  map dvpg_default_vlanId (List.filter dvpg_has_vlanId (dv_portgroups_of content)).

(** The locals between iterations: the variable is unbound while no object
    exists and refers to the newest object afterwards. *)
Definition locals_ok (st : Locals) : Prop :=
  match portgroup_data_var st with
  | None => objects st = []
  | Some l => S l = length (objects st)
  end.

(** A reference [l] stored under [key] points to a host port group
    dictionary whose id is the key. *)
Definition valid_ref (objs : list portgroup_data) (key : string) (l : loc) : Prop :=
  exists pd, objs !! l = Some pd /\ pg_id pd = key /\ pg_vswitch_type pd = "vswitch".

(** One turn of the port group loop of a host (lines 143-154), and the loop
    from any dictionary on. *)
Definition portgroup_step (acc : gmap string loc * Locals)
    (portgroup : HostPortGroup) : gmap string loc * Locals :=
  let l := length (objects (snd acc)) in
  (<[hpg_key portgroup := l]> (fst acc),
   mkLocals (objects (snd acc) ++ [portgroup_record portgroup])%list (Some l)).

Definition host_portgroups_from (pgs : list HostPortGroup)
    (acc : gmap string loc * Locals) : gmap string loc * Locals :=
  fold_left portgroup_step pgs acc.

(** Every reference of every host entry is valid in the store [objs]. *)
Definition refs_ok (objs : list portgroup_data) (m : gmap string host_data)
    : Prop :=
  map_Forall
    (fun _ hd => map_Forall (fun key l => valid_ref objs key l) (hd_portgroups hd))
    m.

(** The VLAN ids line 175 assigns while the port groups [pgs] are walked,
    and a dictionary after these assignments. *)
Definition vlans_of (pgs : list DVPortgroup) : list Z :=
  map dvpg_default_vlanId (List.filter dvpg_has_vlanId pgs).

Definition overwrite (vs : list Z) (pd : portgroup_data) : portgroup_data :=
  fold_left (fun pd v => set_vlan v pd) vs pd.

(** The entry [e] of the distributed switch [dvs] when the variable
    [portgroup_data] refers to the object [l], whose id is [key]. *)
Definition entry_of (key : string) (l : loc) (dvs : DVSwitch)
    (e : dvswitch_data) : Prop :=
  dvd_id e = dvs_str dvs /\ dvd_name e = dvs_name dvs /\
  dvd_status e = dvs_overallStatus dvs /\
  dvd_portgroups e = match dvs_portgroup dvs with
                     | [] => ∅
                     | _ :: _ => {[ key := l ]}
                     end.

Definition entries_ok (key : string) (l : loc) (all : list DVSwitch)
    (m : gmap string dvswitch_data) : Prop :=
  map_Forall
    (fun id e => exists dvs, In dvs all /\ dvs_str dvs = id /\ entry_of key l dvs e)
    m.

(** A vCenter whose virtual machine has an adapter on an opaque network. *)
Definition vm_nsx : VirtualMachine :=
  mkVirtualMachine "'vim.VirtualMachine:vm-102'" "db01" "green" "poweredOn"
    "rhel8_64Guest" "Red Hat Enterprise Linux 8 (64-bit)" None None
    [EthernetCard "00:50:56:aa:bb:04" "Network adapter 1" true OtherBacking].

Definition vcenter_nsx : Content :=
  mkContent
    [mkHostSystem "'vim.HostSystem:host-10'" "esx2.example.net"
       "'vim.ClusterComputeResource:domain-c7'" "Cluster1" "Dell Inc."
       "PowerEdge R640" "green" None "VMware ESXi" "VMware ESXi 7.0.3 build-1"
       [] [] [vm_nsx] [Examples.pg_vm_network]]
    [].

(** A distributed switch whose port groups have an attribute [vlanId]. *)
Definition vcenter_vlan : Content :=
  mkContent
    [Examples.esx
       [mkHostPortGroup "key-vim.host.PortGroup-Management" "Management"
          "key-vim.host.VirtualSwitch-vSwitch0" "vSwitch0" 10;
        Examples.pg_vm_network]]
    [mkDVSwitch "'vim.dvs.VmwareDistributedVirtualSwitch:dvs-21'" "DSwitch" "green"
       [mkDVPortgroup "'vim.dvs.DistributedVirtualPortgroup:dvportgroup-10'"
          "DPG-Prod" true 100;
        mkDVPortgroup "'vim.dvs.DistributedVirtualPortgroup:dvportgroup-11'"
          "DPG-Test" true 200]].

(** What [api_query] returns for it, its host entry and its switch entry. *)
Definition vlan_result : api_data :=
  match api_query vcenter_vlan with
  | Ok d => d
  | Raise _ => mk_api_data ∅ ∅ []
  end.

Definition vlan_host : option host_data :=
  hosts_data vlan_result !! "'vim.HostSystem:host-9'".

Definition vlan_switch : option dvswitch_data :=
  dvswitches_data vlan_result !! "'vim.dvs.VmwareDistributedVirtualSwitch:dvs-21'".

End VsphereTerms.

(** ** Further notions on [discovery] *)

Module DiscoveryTerms.

Import Vsphere.

(** What a run may do to a Discoverable: nothing but set its flag. *)
Definition only_marked (o o' : Discoverable) : Prop :=
  disc_id o' = disc_id o /\ address o' = address o /\ device o' = device o /\
  (discovered o = true -> discovered o' = true).

(** The run of [Examples.run_mixed] as nornir could also hand it over: other
    keys, no entry of a task wrapper. *)
Definition run_plain : list (string * list (Result string)) :=
  [("a",
    [mkResult Examples.pyvmomi_name "10.0.0.1" false "{}"]);
   ("b",
    [mkResult Examples.pyvmomi_name "10.0.0.1" true "Traceback";
     mkResult Examples.pyvmomi_name "10.0.0.2" false "{}"])].

(** A run with a result of a host that is no Discoverable. *)
Definition run_stranger : list (string * list (Result string)) :=
  [("10.0.0.2", [mkResult Examples.pyvmomi_name "10.0.0.2" false "{}"]);
   ("10.0.0.9", [mkResult Examples.pyvmomi_name "10.0.0.9" false "{}"])].

End DiscoveryTerms.

(** * Properties *)

(** ** The inventory ingestor *)

Section ShowInventoryFacts.

Import ShowInventory.

Lemma find_map_preserved {A} (p : A -> bool) (f : A -> A) (l : list A) :
  (forall x, p (f x) = p x) ->
  find p (map f l) = f <$> find p l.
Proof.
  intros Hp. induction l as [|x l IH]; simpl; [reflexivity|].
  rewrite Hp. destruct (p x); [reflexivity | exact IH].
Qed.

Lemma find_some_pred {A} (p : A -> bool) (l : list A) (x : A) :
  find p l = Some x -> p x = true.
Proof.
  induction l as [|y l IH]; simpl; [discriminate|].
  destruct (p y) eqn:E; [intros [= <-]; exact E | exact IH].
Qed.

Lemma scan_items_skip (pre rest : list Item) sn pn :
  Forall non_chassis pre ->
  scan_items (pre ++ rest) sn pn = scan_items rest sn pn.
Proof.
  induction 1 as [|x pre [n [Hn Hc]] _ IH]; simpl; [reflexivity|].
  rewrite Hn, Hc. exact IH.
Qed.

(** What a completed [ingest] leaves: the log's Device written with the
    arguments, the log saved as ingested. *)
Lemma ingest_ok (log : DiscoveryLog) (w : World) (o : Discoverable) sn pn :
  discoverable_by_id (discoverable_id log) w = Some o ->
  part_of (parsed_output log) = Ok (sn, pn) ->
  exists w',
    ingest log w = (Ok (set_ingested true log), w') /\
    device_of log w'
      = Some (device_write sn MANUFACTURER (part_number_value pn) (device o)) /\
    logs w' = save_rows (set_ingested true log) (logs w).
Proof.
  intros Ho Hp. eexists. split; [|split].
  - unfold ingest, bind, log_discoverable, lift. rewrite Ho, Hp. simpl.
    reflexivity.
  - unfold device_of, discoverable_by_id in *. simpl.
    rewrite find_map_preserved.
    + rewrite Ho. simpl. rewrite Z.eqb_refl. reflexivity.
    + intros x. destruct (disc_id x =? disc_id o); reflexivity.
  - reflexivity.
Qed.

Lemma ingest_raise (log : DiscoveryLog) (w : World) (e : exn) :
  (discoverable_by_id (discoverable_id log) w = None /\ e = DoesNotExist) \/
  (is_Some (discoverable_by_id (discoverable_id log) w) /\
   part_of (parsed_output log) = Raise e) ->
  ingest log w = (Raise e, w).
Proof.
  unfold ingest, bind, log_discoverable, lift.
  intros [[-> ->] | [[o ->] ->]]; reflexivity.
Qed.

(** C4: when the parsed output holds a record whose name contains "chassis"
    (in any case) with sn "ABC123" and pid "WS-C1", the records before it
    being no chassis, [ingest] completes and leaves the log's Device with
    serial "ABC123", model keyword "WS-C1" and manufacturer "Cisco". *)
Theorem C4_ingest_chassis_record
    (log : DiscoveryLog) (w : World) (o : Discoverable)
    (pre post : list Item) (chassis : Item) (name : string) :
  discoverable_by_id (discoverable_id log) w = Some o ->
  parsed_output log = (pre ++ chassis :: post)%list ->
  Forall non_chassis pre ->
  chassis !! "name" = Some name ->
  contains "chassis" (lower name) = true ->
  chassis !! "sn" = Some "ABC123" ->
  chassis !! "pid" = Some "WS-C1" ->
  exists w',
    ingest log w = (Ok (set_ingested true log), w') /\
    device_of log w'
      = Some (mkDevice (Some "ABC123") (Some "Cisco") (Some "WS-C1")).
Proof.
  intros Ho Hout Hpre Hname Hc Hsn Hpid.
  destruct (ingest_ok log w o (Some "ABC123") (ItemValue (Some "WS-C1")) Ho)
    as (w' & Hrun & Hdev & _).
  - rewrite Hout. unfold part_of. rewrite scan_items_skip by exact Hpre.
    simpl. rewrite Hname, Hc, Hsn, Hpid. reflexivity.
  - exists w'. split; [exact Hrun | exact Hdev].
Qed.

Lemma C4_witness :
  exists w',
    ingest Examples.log_chassis Examples.world_1
      = (Ok (set_ingested true Examples.log_chassis), w') /\
    device_of Examples.log_chassis w'
      = Some (mkDevice (Some "ABC123") (Some "Cisco") (Some "WS-C1")).
Proof.
  apply (C4_ingest_chassis_record Examples.log_chassis Examples.world_1
           Examples.host_1 [Examples.supervisor] [Examples.power_supply]
           Examples.chassis "Chassis").
  - reflexivity.
  - reflexivity.
  - constructor; [|constructor].
    exists "Supervisor 1". split; reflexivity.
  - reflexivity.
  - reflexivity.
  - reflexivity.
  - reflexivity.
Defined.

Lemma scan_items_none (items : list Item) sn pn :
  Forall non_chassis items ->
  scan_items items sn pn = Ok (sn, pn).
Proof.
  intros H. rewrite <- (app_nil_r items).
  rewrite scan_items_skip by exact H. reflexivity.
Qed.

Lemma truthy_some (s : string) : s <> "" -> truthy (Some s) = true.
Proof.
  intros H. simpl. destruct (String.eqb_spec s ""); [contradiction | reflexivity].
Qed.

(** C5: when no record has "chassis" in its name and the first record has a
    name, an sn and a pid (none of them empty), [ingest] completes and leaves
    the log's Device with that record's sn as serial and its pid as model
    keyword, not the default model. *)
Theorem C5_ingest_first_record
    (log : DiscoveryLog) (w : World) (o : Discoverable)
    (first : Item) (rest : list Item) (name sn pid : string) :
  discoverable_by_id (discoverable_id log) w = Some o ->
  parsed_output log = first :: rest ->
  Forall non_chassis (first :: rest) ->
  first !! "name" = Some name -> name <> "" ->
  first !! "sn" = Some sn -> sn <> "" ->
  first !! "pid" = Some pid -> pid <> "" ->
  exists w',
    ingest log w = (Ok (set_ingested true log), w') /\
    device_of log w' = Some (mkDevice (Some sn) (Some "Cisco") (Some pid)).
Proof.
  intros Ho Hout Hall Hname Hn Hsn Hs Hpid Hp.
  destruct (ingest_ok log w o (Some sn) (ItemValue (Some pid)) Ho)
    as (w' & Hrun & Hdev & _).
  - rewrite Hout. unfold part_of. rewrite scan_items_none by exact Hall.
    unfold first_entry, is_DEFAULT_MODEL. rewrite Hname, Hsn, Hpid.
    rewrite !truthy_some by assumption. reflexivity.
  - exists w'. split; [exact Hrun | exact Hdev].
Qed.

Lemma C5_witness :
  exists w',
    ingest Examples.log_first Examples.world_1
      = (Ok (set_ingested true Examples.log_first), w') /\
    device_of Examples.log_first w'
      = Some (mkDevice (Some "FOC1234") (Some "Cisco") (Some "WS-C2960")).
Proof.
  apply (C5_ingest_first_record Examples.log_first Examples.world_1
           Examples.host_1 Examples.switch_1 [Examples.power_supply]
           "Switch 1" "FOC1234" "WS-C2960").
  - reflexivity.
  - reflexivity.
  - constructor; [|constructor; [|constructor]].
    + exists "Switch 1". split; reflexivity.
    + exists "Power Supply 1". split; reflexivity.
  - reflexivity.
  - discriminate.
  - reflexivity.
  - discriminate.
  - reflexivity.
  - discriminate.
Defined.

(** C10: with an empty parsed output [ingest] raises and leaves the database
    as it was: no Device is written and the log is not marked ingested.  The
    exception is the [IndexError] of [log.parsed_output[0]] once the log's
    Discoverable is found. *)
Theorem C10_ingest_empty_output (log : DiscoveryLog) (w : World) :
  parsed_output log = [] ->
  exists e,
    ingest log w = (Raise e, w) /\
    (is_Some (discoverable_by_id (discoverable_id log) w) -> e = IndexError).
Proof.
  intros Hout.
  destruct (discoverable_by_id (discoverable_id log) w) as [o|] eqn:Ho.
  - exists IndexError. split; [|reflexivity].
    apply ingest_raise. right. rewrite Ho, Hout. split; [eauto | reflexivity].
  - exists DoesNotExist. split.
    + apply ingest_raise. left. split; [exact Ho | reflexivity].
    + intros [x Hx]. discriminate.
Qed.

Lemma C10_witness :
  exists e,
    ingest Examples.log_empty Examples.world_1 = (Raise e, Examples.world_1) /\
    (is_Some (discoverable_by_id (discoverable_id Examples.log_empty)
                Examples.world_1) -> e = IndexError).
Proof.
  apply (C10_ingest_empty_output Examples.log_empty Examples.world_1).
  reflexivity.
Defined.

Lemma device_write_twice s m p d :
  device_write s m p (device_write s m p d) = device_write s m p d.
Proof. destruct s, p; reflexivity. Qed.

Lemma save_rows_twice (l : DiscoveryLog) (ls : list DiscoveryLog) :
  save_rows l (save_rows l ls) = save_rows l ls.
Proof.
  unfold save_rows. destruct (has_log (log_id l) ls) eqn:E.
  - assert (H : has_log (log_id l)
                  (map (fun r => if log_id r =? log_id l then l else r) ls) = true).
    { unfold has_log in *. apply existsb_exists in E as (x & Hx & Hid).
      apply existsb_exists. exists l. split; [|apply Z.eqb_refl].
      apply in_map_iff. exists x. rewrite Hid. split; [reflexivity | exact Hx]. }
    rewrite H. rewrite map_map. apply map_ext. intros r.
    destruct (log_id r =? log_id l) eqn:Er; [rewrite Z.eqb_refl | rewrite Er];
      reflexivity.
  - assert (H : has_log (log_id l) (ls ++ [l]) = true).
    { unfold has_log. rewrite existsb_app. simpl. rewrite Z.eqb_refl.
      apply orb_true_iff. right. reflexivity. }
    rewrite H. rewrite map_app. simpl. rewrite Z.eqb_refl. f_equal.
    rewrite <- (map_id ls) at 2. apply map_ext_in. intros r Hr.
    destruct (log_id r =? log_id l) eqn:Er; [|reflexivity].
    exfalso. unfold has_log in E.
    assert (Ht : existsb (fun r0 => log_id r0 =? log_id l) ls = true).
    { apply existsb_exists. exists r. split; assumption. }
    rewrite Ht in E. discriminate.
Qed.

Lemma ingest_set_ingested (b : bool) (log : DiscoveryLog) (w : World) :
  snd (ingest (set_ingested b log) w)
  = snd (ingest (set_ingested true log) w).
Proof.
  unfold ingest, bind, log_discoverable, lift. simpl.
  destruct (discoverable_by_id (discoverable_id log) w); [|reflexivity].
  destruct (part_of (parsed_output log)); reflexivity.
Qed.

Lemma ingest_world (log : DiscoveryLog) (w : World) :
  snd (ingest log w) = snd (ingest (set_ingested true log) w).
Proof.
  rewrite <- (ingest_set_ingested (ingested log)). destruct log; reflexivity.
Qed.

Lemma ingest_twice_same (log : DiscoveryLog) (w : World) :
  snd (ingest log (snd (ingest log w))) = snd (ingest log w).
Proof.
  unfold ingest at 2 3. unfold bind, log_discoverable, lift.
  destruct (discoverable_by_id (discoverable_id log) w) as [o|] eqn:Ho; simpl.
  - destruct (part_of (parsed_output log)) as [[sn pn]|e] eqn:Hp; simpl.
    + unfold ingest, bind, log_discoverable, lift.
      unfold discoverable_by_id at 1. simpl.
      rewrite find_map_preserved
        by (intros x; destruct (disc_id x =? disc_id o); reflexivity).
      unfold discoverable_by_id in Ho. rewrite Ho. simpl. rewrite Hp. simpl.
      rewrite save_rows_twice, Z.eqb_refl. f_equal.
      rewrite map_map. apply map_ext. intros r.
      destruct (disc_id r =? disc_id o) eqn:Er; simpl; rewrite Er.
      * unfold set_device. simpl. rewrite device_write_twice. reflexivity.
      * reflexivity.
    + unfold ingest, bind, log_discoverable, lift. rewrite Ho, Hp. reflexivity.
  - unfold ingest, bind, log_discoverable. rewrite Ho. reflexivity.
Qed.

(** C9: applying [ingest] to a log a second time, to the object as the first
    application left it or to the log as it was, leaves the database, and so
    the log's Device, as the first application left it: the second
    application computes the same serial, manufacturer and model and writes
    them again. *)
Theorem C9_ingest_twice (log : DiscoveryLog) (w : World) :
  snd (ingest log (snd (ingest log w))) = snd (ingest log w) /\
  snd (ingest (set_ingested true log) (snd (ingest log w))) = snd (ingest log w) /\
  device_of log (snd (ingest (set_ingested true log) (snd (ingest log w))))
  = device_of log (snd (ingest log w)).
Proof.
  assert (H2 : snd (ingest (set_ingested true log) (snd (ingest log w)))
               = snd (ingest log w)).
  { rewrite <- ingest_world. apply ingest_twice_same. }
  split; [apply ingest_twice_same | split; [exact H2 | rewrite H2; reflexivity]].
Qed.

End ShowInventoryFacts.

(** ** The replay script *)

Section ScriptFacts.

Import LogIngest.

Lemma in_insert_by_order (x l : DiscoveryLog) (ls : list DiscoveryLog) :
  In x (insert_by_order l ls) <-> x = l \/ In x ls.
Proof.
  induction ls as [|y ls IH]; simpl.
  - intuition congruence.
  - destruct (order l <=? order y); simpl; [intuition congruence|].
    rewrite IH. intuition congruence.
Qed.

Lemma in_order_by_order (x : DiscoveryLog) (ls : list DiscoveryLog) :
  In x (order_by_order ls) <-> In x ls.
Proof.
  induction ls as [|y ls IH]; simpl; [reflexivity|].
  rewrite in_insert_by_order, IH. intuition congruence.
Qed.

(** Every log of the queryset is a parsed row of the table, and one that is
    not ingested unless [REINGEST] is set. *)
Lemma queryset_sound (cfg : Config) (w : World) (l : DiscoveryLog) :
  In l (queryset cfg w) ->
  In l (logs w) /\ parsed l = true /\
  (REINGEST cfg = false -> ingested l = false).
Proof.
  unfold queryset. intros H.
  assert (H4 : In l
    (let logs := order_by_order (List.filter parsed (logs w)) in
     let logs := match FILTERS cfg with
                 | [] => logs
                 | _ :: _ => List.filter (address_in w (FILTERS cfg)) logs
                 end in
     let logs := if negb (REINGEST cfg)
                 then List.filter (fun l => negb (ingested l)) logs
                 else logs in
     logs)).
  { cbv zeta in *.
    destruct (String.eqb (COMMAND cfg) "");
      [|apply filter_In in H as [H _]];
      (destruct (LOGS cfg); [|apply filter_In in H as [H _]]); exact H. }
  clear H. cbv zeta in H4.
  assert (H2 : In l (order_by_order (List.filter parsed (logs w))) /\
               (REINGEST cfg = false -> ingested l = false)).
  { destruct (REINGEST cfg); simpl in H4.
    - split; [|discriminate].
      destruct (FILTERS cfg); [|apply filter_In in H4 as [H4 _]]; exact H4.
    - apply filter_In in H4 as [H4 Hi]. split.
      + destruct (FILTERS cfg); [|apply filter_In in H4 as [H4 _]]; exact H4.
      + intros _. destruct (ingested l); [discriminate | reflexivity]. }
  destruct H2 as [H2 Hi]. apply in_order_by_order, filter_In in H2 as [Hl Hp].
  auto.
Qed.

Lemma ingest_loop_ext (f g : DiscoveryLog -> M DiscoveryLog) (stop : bool)
    (ls : list DiscoveryLog) (out : list Line) (w : World) :
  (forall l w', In l ls -> f l w' = g l w') ->
  ingest_loop f stop ls out w = ingest_loop g stop ls out w.
Proof.
  revert out w. induction ls as [|x ls IH]; intros out w H; simpl; [reflexivity|].
  rewrite <- (H x w) by (left; reflexivity).
  destruct (f x w) as [[l'|e] w'].
  - apply IH. intros l w0 Hl. apply H. right. exact Hl.
  - destruct stop; [reflexivity|].
    apply IH. intros l w0 Hl. apply H. right. exact Hl.
Qed.

Lemma ingest_loop_app (f : DiscoveryLog -> M DiscoveryLog) (stop : bool)
    (a b : list DiscoveryLog) (out : list Line) (w : World) :
  ingest_loop f stop (a ++ b) out w
  = match ingest_loop f stop a out w with
    | (Ok _, (o, w')) => ingest_loop f stop b o w'
    | (Raise e, s) => (Raise e, s)
    end.
Proof.
  revert out w. induction a as [|x a IH]; intros out w; simpl; [reflexivity|].
  destruct (f x w) as [[l'|e] w'].
  - apply IH.
  - destruct stop; [reflexivity | apply IH].
Qed.

Lemma ingest_loop_true_false (f : DiscoveryLog -> M DiscoveryLog)
    (ls : list DiscoveryLog) (out : list Line) (w : World) s :
  ingest_loop f true ls out w = (Ok tt, s) ->
  ingest_loop f false ls out w = (Ok tt, s).
Proof.
  revert out w. induction ls as [|x ls IH]; intros out w; simpl; [auto|].
  destruct (f x w) as [[l'|e] w']; [apply IH | discriminate].
Qed.

Lemma ingest_loop_false_ok (f : DiscoveryLog -> M DiscoveryLog)
    (ls : list DiscoveryLog) (out : list Line) (w : World) :
  fst (ingest_loop f false ls out w) = Ok tt.
Proof.
  revert out w. induction ls as [|x ls IH]; intros out w; simpl; [reflexivity|].
  destruct (f x w) as [[l'|e] w']; apply IH.
Qed.

Lemma announced_app (a b : list Line) :
  announced (a ++ b) = (announced a ++ announced b)%list.
Proof. unfold announced. apply flat_map_app. Qed.

Lemma ingest_loop_announced (f : DiscoveryLog -> M DiscoveryLog) (stop : bool)
    (ls : list DiscoveryLog) (out : list Line) (w : World) out' w' :
  ingest_loop f stop ls out w = (Ok tt, (out', w')) ->
  announced out' = (announced out ++ map log_id ls)%list.
Proof.
  revert out w. induction ls as [|x ls IH]; intros out w; simpl.
  - intros [= <- _]. rewrite app_nil_r. reflexivity.
  - destruct (f x w) as [[l'|e] w0].
    + intros H. apply IH in H. rewrite H, !announced_app. simpl.
      rewrite app_nil_r, <- app_assoc. reflexivity.
    + destruct stop; [discriminate|].
      intros H. apply IH in H. rewrite H, !announced_app. simpl.
      rewrite app_nil_r, <- app_assoc. reflexivity.
Qed.

Lemma ingest_loop_out_extends (f : DiscoveryLog -> M DiscoveryLog) (stop : bool)
    (ls : list DiscoveryLog) (out : list Line) (w : World) :
  exists sfx, fst (snd (ingest_loop f stop ls out w)) = (out ++ sfx)%list.
Proof.
  revert out w. induction ls as [|x ls IH]; intros out w; simpl.
  - exists []. rewrite app_nil_r. reflexivity.
  - destruct (f x w) as [[l'|e] w0].
    + match goal with
      | |- context [ingest_loop f stop ls ?o ?w'] =>
          destruct (IH o w') as [sfx ->]
      end.
      eexists. rewrite <- !app_assoc. reflexivity.
    + destruct stop; simpl.
      * eexists. rewrite <- !app_assoc. reflexivity.
      * match goal with
        | |- context [ingest_loop f false ls ?o ?w'] =>
            destruct (IH o w') as [sfx ->]
        end.
        eexists. rewrite <- !app_assoc. reflexivity.
Qed.

(** C6: without [REINGEST] no log with [ingested=true] is in the sequence the
    loop walks, so what the ingestor would do on such a log has no bearing
    on the run; and a run over a database whose parsed logs are all ingested
    calls no ingestor, prints nothing and changes nothing. *)
Theorem C6_ingested_logs_skipped
    (f g : DiscoveryLog -> M DiscoveryLog) (cfg : Config) (w : World) :
  REINGEST cfg = false ->
  (forall l, In l (queryset cfg w) -> ingested l = false) /\
  ((forall l w', ingested l = false -> f l w' = g l w') ->
   main f cfg w = main g cfg w) /\
  ((forall l, In l (logs w) -> parsed l = true -> ingested l = true) ->
   main f cfg w = (Ok tt, ([], w))).
Proof.
  intros Hre.
  assert (Hq : forall l, In l (queryset cfg w) -> ingested l = false).
  { intros l Hl. apply (queryset_sound cfg w l Hl). exact Hre. }
  split; [exact Hq | split].
  - intros Hfg. unfold main. apply ingest_loop_ext.
    intros l w' Hl. apply Hfg, Hq, Hl.
  - intros Hall. unfold main.
    destruct (queryset cfg w) as [|l ls] eqn:E; [reflexivity|].
    assert (Hl : In l (queryset cfg w)) by (rewrite E; left; reflexivity).
    pose proof (queryset_sound cfg w l Hl) as (Hin & Hp & Hi).
    rewrite (Hall l Hin Hp) in Hi. specialize (Hi Hre). discriminate.
Qed.

Lemma C6_witness :
  main ShowInventory.ingest Examples.replay Examples.world_done
  = (Ok tt, ([], Examples.world_done)).
Proof.
  apply (C6_ingested_logs_skipped ShowInventory.ingest ShowInventory.ingest
           Examples.replay Examples.world_done).
  - reflexivity.
  - intros l [<- | [<- | []]] _; reflexivity.
Defined.



End ScriptFacts.

(** ** [api_query] *)

Section ApiQueryFacts.

Import Vsphere.

Lemma vnic_of_shape (hw : VirtualDevice) (n : vnic_data) :
  vnic_of hw = Ok (Some n) -> backing_shape n.
Proof.
  destruct hw as [|mac lbl conn [p|net dev|]]; simpl; try discriminate.
  - intros [= <-]. unfold backing_shape, dvswitch_shape, vswitch_shape. simpl.
    split.
    + left. split; [split; reflexivity|]. intros [H _]. discriminate.
    + intros [[x H] _]. discriminate.
  - intros [= <-]. unfold backing_shape, dvswitch_shape, vswitch_shape. simpl.
    split.
    + right. split; [repeat split; eauto|]. intros [H _]. discriminate.
    + intros [_ [x H]]. discriminate.
Qed.

Lemma vnics_shape (devices : list VirtualDevice) (acc nics : list vnic_data) :
  vnics devices acc = Ok nics ->
  Forall backing_shape acc -> Forall backing_shape nics.
Proof.
  revert acc. induction devices as [|hw rest IH]; intros acc; simpl.
  - intros [= <-]. auto.
  - destruct (vnic_of hw) as [[n|]|e] eqn:E; try discriminate.
    + intros H Hacc. apply (IH _ H). apply Forall_app. split; [exact Hacc|].
      constructor; [|constructor]. exact (vnic_of_shape hw n E).
    + apply IH.
Qed.

Lemma vm_data_of_shape (vm : VirtualMachine) (vd : vm_data) :
  vm_data_of vm = Ok vd -> vm_ok vd.
Proof.
  unfold vm_data_of, vm_ok.
  destruct (vnics (vm_device vm) []) as [nics|e] eqn:E; [|discriminate].
  intros [= <-]. simpl. apply (vnics_shape _ _ _ E). constructor.
Qed.

Lemma vms_shape (l : list VirtualMachine) (acc m : gmap string vm_data) :
  vms l acc = Ok m ->
  map_Forall (fun _ vd => vm_ok vd) acc -> map_Forall (fun _ vd => vm_ok vd) m.
Proof.
  revert acc. induction l as [|vm rest IH]; intros acc; simpl.
  - intros [= <-]. auto.
  - destruct (vm_data_of vm) as [vd|e] eqn:E; [|discriminate].
    intros H Hacc. apply (IH _ H). apply map_Forall_insert_2; [|exact Hacc].
    exact (vm_data_of_shape vm vd E).
Qed.

Lemma host_data_of_shape (host : HostSystem) (st st' : Locals) (hd : host_data) :
  host_data_of host st = Ok (hd, st') -> host_ok hd.
Proof.
  unfold host_data_of, host_ok.
  destruct (vms (host_vm host) ∅) as [vmd|e] eqn:E; [|discriminate].
  destruct (host_portgroups (host_portgroup host) st) as [pgs st2].
  intros [= <- _]. simpl. apply (vms_shape _ _ _ E). apply map_Forall_empty.
Qed.

Lemma hosts_loop_shape (hosts : list HostSystem) (acc m : gmap string host_data)
    (st st' : Locals) :
  hosts_loop hosts acc st = Ok (m, st') ->
  map_Forall (fun _ hd => host_ok hd) acc -> map_Forall (fun _ hd => host_ok hd) m.
Proof.
  revert acc st. induction hosts as [|host rest IH]; intros acc st; simpl.
  - intros [= <- _]. auto.
  - destruct (host_data_of host st) as [[hd st2]|e] eqn:E; [|discriminate].
    intros H Hacc. apply (IH _ _ H). apply map_Forall_insert_2; [|exact Hacc].
    exact (host_data_of_shape host st st2 hd E).
Qed.

(** C2, as the code has it: every virtual NIC record of a dictionary that
    [api_query] returns has exactly one of two shapes, "dvswitch" with no
    port group name, or "vswitch" with a port group id, a port group name
    and no port, and never a port group name together with a port.  On the
    distributed side the port group id and the port are the keys of the
    backing's port connection, [None] where the connection has none. *)
Theorem C2_vnic_backing_shape :
  (forall (content : Content) (d : api_data) (n : vnic_data),
     api_query content = Ok d -> vnic_record d n -> backing_shape n) /\
  (forall mac lbl conn (p : PortConnection) (n : vnic_data),
     vnic_of (EthernetCard mac lbl conn (DistributedVirtualPortBacking p))
       = Ok (Some n) ->
     portgroup_id n = portgroupKey p /\ port n = portKey p).
Proof.
  split.
  - intros content d n Hq (h & hd & v & vd & Hh & Hv & Hn).
    unfold api_query in Hq.
    destruct (hosts_loop (view_hosts content) ∅ (mkLocals [] None))
      as [[hs st]|e] eqn:E; [|discriminate].
    destruct (dvswitches_loop (view_dvswitches content) ∅ st)
      as [[ds st2]|e]; [|discriminate].
    injection Hq as <-. simpl in Hh.
    pose proof (hosts_loop_shape _ _ _ _ _ E (map_Forall_empty _)) as Hall.
    specialize (Hall h hd Hh). specialize (Hall v vd Hv).
    unfold vm_ok in Hall. rewrite List.Forall_forall in Hall. apply Hall, Hn.
  - intros mac lbl conn p n [= <-]. split; reflexivity.
Qed.

(** C2 as stated fails: "Network adapter 3" of the sample vCenter is backed
    by a distributed port whose connection carries no port key; its record
    is a "dvswitch" record with a null port, neither of the two stated
    shapes. *)
Lemma C2_counterexample :
  exists d,
    api_query Examples.vcenter = Ok d /\
    vnic_record d Examples.adapter_3 /\
    ~ (dvswitch_shape_with_port Examples.adapter_3 \/
       vswitch_shape Examples.adapter_3).
Proof.
  destruct (api_query Examples.vcenter) as [d|e] eqn:E;
    [|vm_compute in E; discriminate].
  exists d. split; [reflexivity | split].
  - vm_compute in E. injection E as <-.
    exists "'vim.HostSystem:host-9'". eexists.
    exists "'vim.VirtualMachine:vm-101'". eexists.
    split; [vm_compute; reflexivity | split; [vm_compute; reflexivity|]].
    simpl. right. right. left. reflexivity.
  - intros [(_ & _ & [x H] & _) | (H & _)]; discriminate.
Qed.

Lemma C2_witness : backing_shape Examples.adapter_3.
Proof.
  refine (proj1 C2_vnic_backing_shape Examples.vcenter _ Examples.adapter_3 _ _).
  - vm_compute. reflexivity.
  - exists "'vim.HostSystem:host-9'". eexists.
    exists "'vim.VirtualMachine:vm-101'". eexists.
    split; [vm_compute; reflexivity | split; [vm_compute; reflexivity|]].
    simpl. right. right. left. reflexivity.
Defined.

(** C3 fails on the code: for the sample vCenter, whose distributed switch
    has the port group "dvportgroup-10" named "DPG-Prod", the entry of the
    switch has no record under that port group's id; its only record is the
    host's port group "VM Network", under the host port group's key. *)
Theorem C3_dvswitch_portgroups_lost :
  exists d dd,
    api_query Examples.vcenter = Ok d /\
    dvswitches_data d !! "'vim.dvs.VmwareDistributedVirtualSwitch:dvs-21'"
      = Some dd /\
    dvd_portgroups dd !! "'vim.dvs.DistributedVirtualPortgroup:dvportgroup-10'"
      = None /\
    shown (heap d) (dvd_portgroups dd)
      = {[ "key-vim.host.PortGroup-VM Network" :=
             mk_portgroup_data "key-vim.host.PortGroup-VM Network" "VM Network"
               "key-vim.host.VirtualSwitch-vSwitch0" "vSwitch0" "vswitch" 0 ]}.
Proof.
  eexists. eexists. split; [vm_compute; reflexivity|].
  split; [vm_compute; reflexivity|].
  split; vm_compute; reflexivity.
Qed.

(** When no host has a port group, the variable read at line 177 was never
    bound and [api_query] raises. *)
Lemma api_query_unbound :
  api_query Examples.vcenter_bare = Raise UnboundLocalError.
Proof. vm_compute. reflexivity. Qed.

End ApiQueryFacts.

(** ** [discovery] *)

Section DiscoveryFacts.

Import Vsphere.

Variable Payload : Type.
Variable json_dumps : Payload -> string.
Variable json_loads : string -> option Details.

Lemma for_each_app {A S} (body : A -> S -> M S) (xs ys : list A) (s : S)
    (w : World) :
  for_each body (xs ++ ys) s w
  = match for_each body xs s w with
    | (Ok s', w') => for_each body ys s' w'
    | (Raise e, w') => (Raise e, w')
    end.
Proof.
  revert s w. induction xs as [|x xs IH]; intros s w; simpl; [reflexivity|].
  unfold bind. destruct (body x s w) as [[s'|e] w']; [apply IH | reflexivity].
Qed.

Lemma for_each_concat {A K S} (body : A -> S -> M S) (agg : list (K * list A))
    (s : S) (w : World) :
  for_each (fun kv st => for_each body (snd kv) st) agg s w
  = for_each body (concat (map snd agg)) s w.
Proof.
  revert s w. induction agg as [|kv agg IH]; intros s w; simpl; [reflexivity|].
  rewrite for_each_app. unfold bind.
  destruct (for_each body (snd kv) s w) as [[s'|e] w']; [apply IH | reflexivity].
Qed.

Lemma find_address (a : string) (w : World) (o : Discoverable) :
  find (fun o => String.eqb (address o) a) (discoverables w) = Some o ->
  address o = a.
Proof.
  intros H. apply find_some in H as [_ H]. apply String.eqb_eq. exact H.
Qed.

Lemma existsb_in_list (a : string) (l : list string) :
  in_list a l = true <-> In a l.
Proof.
  unfold in_list. rewrite existsb_exists. split.
  - intros (x & Hx & E). apply String.eqb_eq in E. subst. exact Hx.
  - intros H. exists a. split; [exact H | apply String.eqb_refl].
Qed.

Lemma in_list_add_once (a b : string) (l : list string) :
  in_list a (add_once b l) = (in_list a l || String.eqb a b)%bool.
Proof.
  unfold add_once. destruct (in_list b l) eqn:E; simpl.
  - destruct (String.eqb_spec a b) as [->|_].
    + rewrite E. reflexivity.
    + rewrite orb_false_r. reflexivity.
  - unfold in_list. rewrite existsb_app. simpl. rewrite orb_false_r.
    reflexivity.
Qed.

Lemma in_list_track (a : string) (qs : list (Result Payload)) (st : Lists) :
  in_list a (fst (track qs st)) = (in_list a (fst st) || seen a qs)%bool /\
  in_list a (snd (track qs st)) = (in_list a (snd st) || failed_for a qs)%bool.
Proof.
  revert st. induction qs as [|r qs IH]; intros st; simpl.
  - rewrite !orb_false_r. split; reflexivity.
  - unfold track in *. simpl. destruct (IH
      (add_once (r_hostname r) (fst st),
       if r_failed r then add_once (r_hostname r) (snd st) else snd st))
      as [H1 H2].
    rewrite H1, H2. simpl. rewrite in_list_add_once. split.
    + rewrite orb_assoc. reflexivity.
    + destruct (r_failed r).
      * rewrite in_list_add_once, andb_true_r, orb_assoc. reflexivity.
      * rewrite andb_false_r. reflexivity.
Qed.

(** One pass of the body of the inner loop. *)
Lemma record_result_wrapper (r : Result Payload) (st : Lists) (w : World) :
  is_query r = false ->
  record_result json_dumps json_loads r st w = (Ok st, w).
Proof.
  unfold is_query, record_result. destruct st as [hl fl].
  destruct (String.eqb (r_name r) "multiple_tasks"); [reflexivity | discriminate].
Qed.

Lemma record_result_query (r : Result Payload) (st : Lists) (w : World)
    (o : Discoverable) (d : Details) :
  is_query r = true ->
  find (fun o => String.eqb (address o) (r_hostname r)) (discoverables w) = Some o ->
  json_loads (r_name r) = Some d ->
  record_result json_dumps json_loads r st w
  = (Ok (track [r] st),
     mkWorld (discoverables w)
       (logs w ++ [mkLog (next_log_id (logs w)) (disc_id o) (det_command d)
                         (det_template d) (det_order d)
                         (json_dumps (r_result r)) d false [] false])).
Proof.
  unfold is_query, record_result. destruct st as [hl fl]. intros Hq Ho Hd.
  destruct (String.eqb (r_name r) "multiple_tasks"); [discriminate|].
  unfold bind, discoverable_get, gets, lift, discoverylog_create, modify, ret.
  rewrite Ho, Hd. simpl. rewrite (find_address _ _ _ Ho).
  unfold track, add_once. simpl.
  destruct (r_failed r); simpl; [|reflexivity].
  destruct (in_list (r_hostname r) fl); reflexivity.
Qed.

(** The recording loop over the results of a run, wrappers included. *)
Lemma record_all (rs : list (Result Payload)) (st : Lists) (w : World) :
  Forall (resolvable json_loads w) (List.filter is_query rs) ->
  exists new,
    for_each (record_result json_dumps json_loads) rs st w
    = (Ok (track (List.filter is_query rs) st),
       mkWorld (discoverables w) (logs w ++ new)) /\
    Forall2 (created_for json_dumps json_loads w) (List.filter is_query rs) new.
Proof.
  revert st w. induction rs as [|r rs IH]; intros st w H; simpl.
  - exists []. rewrite app_nil_r. destruct w. split; [reflexivity | constructor].
  - simpl in H. unfold bind. destruct (is_query r) eqn:Eq.
    + apply Forall_cons in H as [[[o Ho] [d Hd]] H].
      rewrite (record_result_query r st w o d Eq Ho Hd).
      destruct (IH (track [r] st)
                  (mkWorld (discoverables w)
                     (logs w ++ [mkLog (next_log_id (logs w)) (disc_id o)
                        (det_command d) (det_template d) (det_order d)
                        (json_dumps (r_result r)) d false [] false])) H)
        as (new & Hrun & Hnew).
      eexists. split.
      * rewrite Hrun. simpl. rewrite <- app_assoc. reflexivity.
      * simpl. constructor; [|exact Hnew].
        exists o, d. repeat split; assumption.
    + rewrite (record_result_wrapper r st w Eq). apply IH, H.
Qed.

Lemma marked_nil (fl : list string) (o : Discoverable) : marked [] fl o = o.
Proof. reflexivity. Qed.

Lemma marked_cons (a : string) (hl fl : list string) (o : Discoverable) :
  marked hl fl
    (if negb (in_list a fl)
     then (if String.eqb (address o) a then set_discovered true o else o)
     else o)
  = marked (a :: hl) fl o.
Proof.
  unfold marked. simpl.
  destruct (String.eqb_spec (address o) a) as [E|E]; simpl.
  - subst a. destruct (in_list (address o) fl) eqn:Ef; simpl.
    + rewrite Ef, !andb_false_r. reflexivity.
    + rewrite Ef, andb_true_r. destruct (in_list (address o) hl); reflexivity.
  - destruct (in_list a fl); reflexivity.
Qed.

Lemma mark_hosts_run (hl fl : list string) (w : World) :
  mark_hosts hl fl w
  = (Ok tt, mkWorld (map (marked hl fl) (discoverables w)) (logs w)).
Proof.
  unfold mark_hosts. revert w. induction hl as [|a hl IH]; intros w; simpl.
  - unfold ret. rewrite (map_ext _ id (marked_nil fl)), map_id.
    destruct w; reflexivity.
  - unfold bind. destruct (negb (in_list a fl)) eqn:E; simpl.
    + unfold discoverable_mark_discovered, modify. rewrite IH. simpl.
      rewrite map_map. f_equal. f_equal. apply map_ext. intros o.
      rewrite <- marked_cons, E. reflexivity.
    + unfold ret. rewrite IH. f_equal. f_equal. apply map_ext. intros o.
      rewrite <- marked_cons, E. reflexivity.
Qed.

(** What a run leaves when every query result can be recorded. *)
Lemma discovery_run (agg : list (string * list (Result Payload))) (w : World) :
  Forall (resolvable json_loads w) (queries agg) ->
  exists new,
    discovery json_dumps json_loads agg w
    = (Ok tt,
       mkWorld
         (map (marked (fst (track (queries agg) ([], [])))
                      (snd (track (queries agg) ([], []))))
              (discoverables w))
         (logs w ++ new)) /\
    Forall2 (created_for json_dumps json_loads w) (queries agg) new.
Proof.
  intros H. unfold discovery, bind. rewrite for_each_concat.
  destruct (record_all (concat (map snd agg)) ([], []) w H) as (new & Hrun & Hnew).
  exists new. split; [|exact Hnew].
  rewrite Hrun. rewrite mark_hosts_run. reflexivity.
Qed.


(** C8: when every query result of a run can be recorded, the run completes
    and appends to the log store one DiscoveryLog for each query result, in
    their order and none for a task wrapper; the log of a result has the
    serialized result as raw output and the command, template and order of
    the details in the result's name, whether the query failed or not. *)
Theorem C8_one_log_per_query
    (agg : list (string * list (Result Payload))) (w : World) :
  Forall (resolvable json_loads w) (queries agg) ->
  exists w' new,
    discovery json_dumps json_loads agg w = (Ok tt, w') /\
    logs w' = (logs w ++ new)%list /\
    Forall2 (created_for json_dumps json_loads w) (queries agg) new.
Proof.
  intros H. destruct (discovery_run agg w H) as (new & Hrun & Hnew).
  eexists. exists new. split; [exact Hrun | split; [reflexivity | exact Hnew]].
Qed.

End DiscoveryFacts.

Section DiscoverySamples.

Import Vsphere.

Lemma run_mixed_resolvable :
  Forall (resolvable Examples.loads Examples.world_0)
    (queries Examples.run_mixed).
Proof.
  repeat constructor; vm_compute; eauto.
Qed.



Lemma C8_witness :
  exists w' new,
    discovery Examples.dumps Examples.loads Examples.run_mixed Examples.world_0
      = (Ok tt, w') /\
    logs w' = (logs Examples.world_0 ++ new)%list /\
    Forall2 (created_for Examples.dumps Examples.loads Examples.world_0)
      (queries Examples.run_mixed) new.
Proof.
  apply (C8_one_log_per_query string Examples.dumps Examples.loads
           Examples.run_mixed Examples.world_0).
  exact run_mixed_resolvable.
Defined.

End DiscoverySamples.

(** * Further properties *)

(** ** The inventory ingestor: which record decides, and how it fails *)

Section InventoryCoverage.

Import ShowInventory InventoryTerms.

(** The loop ends in one of three ways: no record is a chassis, a first
    chassis record is met, or a record without a name is met before any
    chassis. *)
Lemma scan_items_cases (items : list Item) sn pn :
  (Forall non_chassis items /\ scan_items items sn pn = Ok (sn, pn)) \/
  (exists pre c post,
     items = (pre ++ c :: post)%list /\ Forall non_chassis pre /\
     chassis_named c /\
     scan_items items sn pn = Ok (c !! "sn", ItemValue (c !! "pid"))) \/
  (exists pre item post,
     items = (pre ++ item :: post)%list /\ Forall non_chassis pre /\
     item !! "name" = None /\
     scan_items items sn pn = Raise AttributeError).
Proof.
  induction items as [|x items IH].
  - left. split; [constructor | reflexivity].
  - simpl. destruct (x !! "name") as [n|] eqn:En.
    + destruct (contains "chassis" (lower n)) eqn:Ec.
      * right. left. exists [], x, items.
        split; [reflexivity | split; [constructor | split; [|reflexivity]]].
        exists n. split; assumption.
      * assert (Hx : non_chassis x) by (exists n; split; assumption).
        destruct IH as [[Hall Hs] | [(pre & c & post & -> & Hpre & Hc & Hs)
                                    | (pre & it & post & -> & Hpre & Hn & Hs)]].
        -- left. split; [constructor; assumption | exact Hs].
        -- right. left. exists (x :: pre), c, post.
           split; [reflexivity | split; [constructor; assumption | split]];
             assumption.
        -- right. right. exists (x :: pre), it, post.
           split; [reflexivity | split; [constructor; assumption | split]];
             assumption.
    + right. right. exists [], x, items.
      split; [reflexivity | split; [constructor | split; [exact En | reflexivity]]].
Qed.

Lemma part_of_raise_kind (items : list Item) (e : exn) :
  part_of items = Raise e -> e = IndexError \/ e = AttributeError.
Proof.
  unfold part_of.
  destruct (scan_items_cases items None DefaultModelObject)
    as [[_ Hs] | [(pre & c & post & _ & _ & _ & Hs)
                 | (pre & it & post & _ & _ & _ & Hs)]]; rewrite Hs.
  - unfold first_entry, is_DEFAULT_MODEL. destruct items as [|x items].
    + intros [= <-]. left. reflexivity.
    + destruct (truthy (x !! "name") && truthy (x !! "sn")
                && truthy (x !! "pid"))%bool; discriminate.
  - discriminate.
  - intros [= <-]. right. reflexivity.
Qed.

(** X1: the computation of the serial and model raises in exactly two
    cases: the parsed output is empty ([IndexError]), or a record without a
    name comes before any chassis record ([AttributeError]). *)
Theorem part_of_raises (items : list Item) (e : exn) :
  part_of items = Raise e <->
  (items = [] /\ e = IndexError) \/
  (e = AttributeError /\
   exists pre item post,
     items = (pre ++ item :: post)%list /\ Forall non_chassis pre /\
     item !! "name" = None).
Proof.
  split.
  - unfold part_of.
    destruct (scan_items_cases items None DefaultModelObject)
      as [[Hall Hs] | [(pre & c & post & -> & Hpre & Hc & Hs)
                      | (pre & it & post & -> & Hpre & Hn & Hs)]];
      rewrite Hs.
    + unfold first_entry, is_DEFAULT_MODEL. destruct items as [|x items].
      * intros [= <-]. left. split; reflexivity.
      * destruct (truthy (x !! "name") && truthy (x !! "sn")
                  && truthy (x !! "pid"))%bool; discriminate.
    + discriminate.
    + intros [= <-]. right. split; [reflexivity|].
      exists pre, it, post. repeat split; assumption.
  - intros [[-> ->] | [-> (pre & it & post & -> & Hpre & Hn)]].
    + reflexivity.
    + unfold part_of. rewrite scan_items_skip by exact Hpre. simpl.
      rewrite Hn. reflexivity.
Qed.

(** X2: the first chassis record decides, whatever follows it and whatever
    it holds: its sn and pid are the serial and the model, [None] where the
    record has none; there is no fall back to the first record or to the
    default model. *)
Theorem ingest_first_chassis_decides
    (log : DiscoveryLog) (w : World) (o : Discoverable)
    (pre post : list Item) (c : Item) :
  discoverable_by_id (discoverable_id log) w = Some o ->
  parsed_output log = (pre ++ c :: post)%list ->
  Forall non_chassis pre ->
  chassis_named c ->
  part_of (parsed_output log) = Ok (c !! "sn", ItemValue (c !! "pid")) /\
  exists w',
    ingest log w = (Ok (set_ingested true log), w') /\
    device_of log w'
    = Some (device_write (c !! "sn") MANUFACTURER (c !! "pid") (device o)).
Proof.
  intros Ho Hout Hpre (n & Hn & Hc).
  assert (Hp : part_of (parsed_output log) = Ok (c !! "sn", ItemValue (c !! "pid"))).
  { rewrite Hout. unfold part_of. rewrite scan_items_skip by exact Hpre.
    simpl. rewrite Hn, Hc. reflexivity. }
  split; [exact Hp|].
  destruct (ingest_ok log w o _ _ Ho Hp) as (w' & Hrun & Hdev & _).
  exists w'. split; [exact Hrun | exact Hdev].
Qed.

Lemma ingest_first_chassis_decides_witness :
  part_of (parsed_output log_bare) = Ok (Some "XYZ789", ItemValue None) /\
  exists w',
    ingest log_bare Examples.world_1 = (Ok (set_ingested true log_bare), w') /\
    device_of log_bare w'
    = Some (device_write (Some "XYZ789") MANUFACTURER None Examples.blank).
Proof.
  apply (ingest_first_chassis_decides log_bare Examples.world_1 Examples.host_1
           [Examples.supervisor] [Examples.chassis] chassis_bare).
  - reflexivity.
  - reflexivity.
  - constructor; [|constructor]. exists "Supervisor 1". split; reflexivity.
  - exists "CHASSIS slot 0". split; reflexivity.
Defined.

(** X3: when no record is a chassis and the first record lacks a name, an
    sn or a pid (missing or empty), [ingest] completes and calls
    [device.update] with no serial, the manufacturer "Cisco" and the model
    "Cisco Unknown device". *)
Theorem ingest_default_model
    (log : DiscoveryLog) (w : World) (o : Discoverable)
    (first : Item) (rest : list Item) :
  discoverable_by_id (discoverable_id log) w = Some o ->
  parsed_output log = first :: rest ->
  Forall non_chassis (first :: rest) ->
  usable first = false ->
  part_of (parsed_output log) = Ok (None, DefaultModelObject) /\
  exists w',
    ingest log w = (Ok (set_ingested true log), w') /\
    device_of log w'
    = Some (device_write None "Cisco" (Some "Cisco Unknown device") (device o)).
Proof.
  intros Ho Hout Hall Hu.
  assert (Hp : part_of (parsed_output log) = Ok (None, DefaultModelObject)).
  { rewrite Hout. unfold part_of. rewrite scan_items_none by exact Hall.
    unfold first_entry, is_DEFAULT_MODEL. unfold usable in Hu. rewrite Hu.
    reflexivity. }
  split; [exact Hp|].
  destruct (ingest_ok log w o _ _ Ho Hp) as (w' & Hrun & Hdev & _).
  exists w'. split; [exact Hrun | exact Hdev].
Qed.

Lemma ingest_default_model_witness :
  part_of (parsed_output log_blank) = Ok (None, DefaultModelObject) /\
  exists w',
    ingest log_blank Examples.world_1 = (Ok (set_ingested true log_blank), w') /\
    device_of log_blank w'
    = Some (device_write None "Cisco" (Some "Cisco Unknown device") Examples.blank).
Proof.
  apply (ingest_default_model log_blank Examples.world_1 Examples.host_1
           stack_blank [Examples.power_supply]).
  - reflexivity.
  - reflexivity.
  - constructor; [|constructor; [|constructor]].
    + exists "Switch 1". split; reflexivity.
    + exists "Power Supply 1". split; reflexivity.
  - reflexivity.
Defined.

Lemma in_save_rows (l : DiscoveryLog) (ls : list DiscoveryLog) :
  In l (save_rows l ls).
Proof.
  unfold save_rows. destruct (has_log (log_id l) ls) eqn:E.
  - unfold has_log in E. apply existsb_exists in E as (x & Hx & Hid).
    apply in_map_iff. exists x. rewrite Hid. split; [reflexivity | exact Hx].
  - apply in_or_app. right. left. reflexivity.
Qed.

(** X4: an [ingest] that returns has set the manufacturer of the log's
    Device to "Cisco", whatever the parsed output held, and has saved the
    log with [ingested=true] and its other fields as they were. *)
Theorem ingest_returns (log l' : DiscoveryLog) (w w' : World) :
  ingest log w = (Ok l', w') ->
  l' = set_ingested true log /\
  In l' (logs w') /\
  exists d, device_of log w' = Some d /\ manufacturer d = Some "Cisco".
Proof.
  intros H.
  destruct (discoverable_by_id (discoverable_id log) w) as [o|] eqn:Ho.
  - destruct (part_of (parsed_output log)) as [[sn pn]|e] eqn:Hp.
    + destruct (ingest_ok log w o sn pn Ho Hp) as (w2 & Hrun & Hdev & Hlogs).
      rewrite Hrun in H. injection H as <- <-.
      split; [reflexivity | split].
      * rewrite Hlogs. apply in_save_rows.
      * eexists. split; [exact Hdev | reflexivity].
    + rewrite (ingest_raise log w e) in H; [discriminate|].
      right. split; [eauto | exact Hp].
  - rewrite (ingest_raise log w DoesNotExist) in H; [discriminate|].
    left. split; [exact Ho | reflexivity].
Qed.

Lemma ingest_returns_witness :
  set_ingested true Examples.log_chassis = set_ingested true Examples.log_chassis /\
  In (set_ingested true Examples.log_chassis)
     (logs (snd (ingest Examples.log_chassis Examples.world_1))) /\
  exists d,
    device_of Examples.log_chassis (snd (ingest Examples.log_chassis Examples.world_1))
      = Some d /\
    manufacturer d = Some "Cisco".
Proof.
  apply (ingest_returns Examples.log_chassis (set_ingested true Examples.log_chassis)
           Examples.world_1 (snd (ingest Examples.log_chassis Examples.world_1))).
  vm_compute. reflexivity.
Defined.

(** X5: an [ingest] that raises has written nothing: the database is as it
    was, Device and log included.  The exception is the [DoesNotExist] of a
    log without Discoverable, the [IndexError] of an empty parsed output or
    the [AttributeError] of a record without a name. *)
Theorem ingest_raises_clean (log : DiscoveryLog) (w w' : World) (e : exn) :
  ingest log w = (Raise e, w') ->
  w' = w /\ (e = DoesNotExist \/ e = IndexError \/ e = AttributeError).
Proof.
  intros H.
  destruct (discoverable_by_id (discoverable_id log) w) as [o|] eqn:Ho.
  - destruct (part_of (parsed_output log)) as [[sn pn]|e2] eqn:Hp.
    + destruct (ingest_ok log w o sn pn Ho Hp) as (w2 & Hrun & _).
      rewrite Hrun in H. discriminate.
    + rewrite (ingest_raise log w e2) in H by (right; split; [eauto | exact Hp]).
      injection H as <- <-. split; [reflexivity|].
      apply part_of_raise_kind in Hp as [-> | ->]; auto.
  - rewrite (ingest_raise log w DoesNotExist) in H
      by (left; split; [exact Ho | reflexivity]).
    injection H as <- <-. split; [reflexivity | auto].
Qed.

Lemma ingest_raises_clean_witness :
  Examples.world_1 = Examples.world_1 /\
  (AttributeError = DoesNotExist \/ AttributeError = IndexError \/
   AttributeError = AttributeError).
Proof.
  apply (ingest_raises_clean log_nameless Examples.world_1 Examples.world_1
           AttributeError).
  vm_compute. reflexivity.
Defined.

End InventoryCoverage.

(** ** The replay script: what is selected, and how the loop ends *)

Section ScriptCoverage.

Import LogIngest ScriptTerms.

Lemma queryset_member (cfg : Config) (w : World) (l : DiscoveryLog) :
  In l (queryset cfg w) <->
  In l (logs w) /\ parsed l = true /\
  (FILTERS cfg = [] \/ address_in w (FILTERS cfg) l = true) /\
  (REINGEST cfg = true \/ ingested l = false) /\
  (LOGS cfg = [] \/ in_ids (log_id l) (LOGS cfg) = true) /\
  (COMMAND cfg = "" \/ command l = COMMAND cfg).
Proof.
  unfold queryset. cbv zeta.
  destruct (String.eqb_spec (COMMAND cfg) "") as [Ec|Ec];
    destruct (LOGS cfg) as [|i ids] eqn:El;
    destruct (REINGEST cfg) eqn:Er;
    destruct (FILTERS cfg) as [|a fs] eqn:Ef; simpl;
    rewrite ?filter_In, in_order_by_order, filter_In,
      ?negb_true_iff, ?String.eqb_eq;
    intuition (try congruence; try discriminate).
Qed.

(** X6: a log is in the sequence of the loop exactly when it is a parsed row
    of the table that passes every filter that is set: the address filter
    when [FILTERS] is not empty, [ingested=False] unless [REINGEST], the id
    filter when [LOGS] is not empty, the command filter when [COMMAND] is not
    empty. *)
Theorem queryset_selects (cfg : Config) (w : World) (l : DiscoveryLog) :
  In l (queryset cfg w) <->
  In l (logs w) /\ parsed l = true /\
  (FILTERS cfg = [] \/ address_in w (FILTERS cfg) l = true) /\
  (REINGEST cfg = true \/ ingested l = false) /\
  (LOGS cfg = [] \/ in_ids (log_id l) (LOGS cfg) = true) /\
  (COMMAND cfg = "" \/ command l = COMMAND cfg).
Proof.
  split; intros H.
  - apply queryset_member in H. exact H.
  - apply queryset_member. exact H.
Qed.

Lemma insert_by_order_sorted (l : DiscoveryLog) (ls : list DiscoveryLog) :
  StronglySorted by_order ls -> StronglySorted by_order (insert_by_order l ls).
Proof.
  induction 1 as [|x r Hr IH Hx]; simpl.
  - constructor; constructor.
  - destruct (Z.leb_spec (order l) (order x)) as [Hle|Hlt].
    + constructor; [constructor; assumption|].
      constructor; [exact Hle|].
      rewrite List.Forall_forall in *. intros y Hy. specialize (Hx y Hy).
      unfold by_order in *. lia.
    + constructor; [exact IH|].
      rewrite List.Forall_forall in *. intros y Hy.
      apply in_insert_by_order in Hy as [-> | Hy].
      * unfold by_order. lia.
      * apply Hx, Hy.
Qed.

Lemma order_by_order_sorted (ls : list DiscoveryLog) :
  StronglySorted by_order (order_by_order ls).
Proof.
  induction ls as [|x ls IH]; simpl; [constructor|].
  apply insert_by_order_sorted, IH.
Qed.

Lemma filter_sorted (p : DiscoveryLog -> bool) (ls : list DiscoveryLog) :
  StronglySorted by_order ls -> StronglySorted by_order (List.filter p ls).
Proof.
  induction 1 as [|x r Hr IH Hx]; simpl; [constructor|].
  destruct (p x); [|exact IH].
  constructor; [exact IH|].
  rewrite List.Forall_forall in *. intros y Hy.
  apply filter_In in Hy as [Hy _]. apply Hx, Hy.
Qed.

(** X7: the loop walks the logs in ascending [order]: each log of the
    sequence has an [order] at most that of every log after it, whatever
    filters are set and in whatever order the rows are stored. *)
Theorem queryset_sorted (cfg : Config) (w : World) :
  StronglySorted by_order (queryset cfg w).
Proof.
  unfold queryset. cbv zeta.
  assert (H0 := order_by_order_sorted (List.filter parsed (logs w))).
  destruct (String.eqb (COMMAND cfg) ""); destruct (LOGS cfg);
    destruct (REINGEST cfg); destruct (FILTERS cfg); simpl;
    repeat apply filter_sorted; exact H0.
Qed.

Lemma count_failed_app (a b : list Line) :
  count_failed (a ++ b) = (count_failed a + count_failed b)%nat.
Proof. unfold count_failed. rewrite List.filter_app, length_app. reflexivity. Qed.

Lemma count_done_app (a b : list Line) :
  count_done (a ++ b) = (count_done a + count_done b)%nat.
Proof. unfold count_done. rewrite List.filter_app, length_app. reflexivity. Qed.

(** The lines of a loop that returned. *)
Lemma ingest_loop_lines (f : DiscoveryLog -> M DiscoveryLog) (stop : bool)
    (ls : list DiscoveryLog) (out : list Line) (w : World) out' w' :
  ingest_loop f stop ls out w = (Ok tt, (out', w')) ->
  length out' = (length out + 2 * length ls)%nat /\
  (count_done out' + count_failed out'
   = count_done out + count_failed out + length ls)%nat /\
  (stop = true -> count_failed out' = count_failed out).
Proof.
  assert (Hd : forall ln, count_done [ln]
                = match ln with done_ => 1%nat | _ => 0%nat end)
    by (intros []; reflexivity).
  assert (Hf : forall ln, count_failed [ln]
                = match ln with failed_ => 1%nat | _ => 0%nat end)
    by (intros []; reflexivity).
  revert out w. induction ls as [|x ls IH]; intros out w; simpl.
  - intros [= <- _]. split; [lia | split; [lia | reflexivity]].
  - destruct (f x w) as [[l'|e] w0].
    + intros H. apply IH in H as (H1 & H2 & H3).
      rewrite !length_app in H1.
      rewrite !count_done_app, !count_failed_app, !Hd, !Hf in H2.
      simpl in H1, H2.
      split; [lia | split; [lia|]].
      intros Hs. rewrite (H3 Hs), !count_failed_app, !Hf. lia.
    + destruct stop; [discriminate|].
      intros H. apply IH in H as (H1 & H2 & _).
      rewrite !length_app in H1.
      rewrite !count_done_app, !count_failed_app, !Hd, !Hf in H2.
      simpl in H1, H2.
      split; [lia | split; [lia | discriminate]].
Qed.

(** X8: a run that stops on errors and returns has met no failure: it
    printed no "failed" and one "done" for each log of the sequence, it
    announced the logs in their order, and a run that continues past
    failures would have ended the same. *)
Theorem stop_mode_return (f : DiscoveryLog -> M DiscoveryLog) (cfg : Config)
    (w w' : World) (out' : list Line) :
  STOP_ON_ERROR cfg = true ->
  main f cfg w = (Ok tt, (out', w')) ->
  count_failed out' = 0%nat /\
  count_done out' = length (queryset cfg w) /\
  announced out' = map log_id (queryset cfg w) /\
  ingest_loop f false (queryset cfg w) [] w = (Ok tt, (out', w')).
Proof.
  unfold main. intros -> H.
  pose proof (ingest_loop_lines _ _ _ _ _ _ _ H) as (_ & H2 & H3).
  specialize (H3 eq_refl).
  change (count_failed []) with 0%nat in H2, H3.
  change (count_done []) with 0%nat in H2.
  split; [exact H3 | split; [lia | split]].
  - apply ingest_loop_announced in H. exact H.
  - apply ingest_loop_true_false, H.
Qed.

Lemma stop_mode_return_witness :
  count_failed (fst (snd (main ShowInventory.ingest replay_host_1 world_2))) = 0%nat /\
  count_done (fst (snd (main ShowInventory.ingest replay_host_1 world_2)))
  = length (queryset replay_host_1 world_2) /\
  announced (fst (snd (main ShowInventory.ingest replay_host_1 world_2)))
  = map log_id (queryset replay_host_1 world_2) /\
  ingest_loop ShowInventory.ingest false (queryset replay_host_1 world_2) [] world_2
  = (Ok tt, (fst (snd (main ShowInventory.ingest replay_host_1 world_2)),
             snd (snd (main ShowInventory.ingest replay_host_1 world_2)))).
Proof.
  apply (stop_mode_return ShowInventory.ingest replay_host_1 world_2).
  - reflexivity.
  - vm_compute. reflexivity.
Defined.





Lemma Forall2_in_l {A B} (R : A -> B -> Prop) (a : list A) (b : list B) (x : A) :
  Forall2 R a b -> In x a -> exists y, In y b /\ R x y.
Proof.
  induction 1 as [|x0 y0 a b Hxy _ IH]; simpl; [contradiction|].
  intros [<- | Hx].
  - exists y0. split; [left; reflexivity | exact Hxy].
  - destruct (IH Hx) as (y & Hy & Hr). exists y. split; [right|]; assumption.
Qed.

Lemma Forall2_in_r {A B} (R : A -> B -> Prop) (a : list A) (b : list B) (y : B) :
  Forall2 R a b -> In y b -> exists x, In x a /\ R x y.
Proof.
  induction 1 as [|x0 y0 a b Hxy _ IH]; simpl; [contradiction|].
  intros [<- | Hy].
  - exists x0. split; [left; reflexivity | exact Hxy].
  - destruct (IH Hy) as (x & Hx & Hr). exists x. split; [right|]; assumption.
Qed.

Lemma Forall2_map_r {A B} (R R' : A -> B -> Prop) (h : B -> B)
    (a : list A) (b : list B) :
  (forall x y, R x y -> R' x (h y)) ->
  Forall2 R a b -> Forall2 R' a (map h b).
Proof.
  intros Hh. induction 1; simpl; constructor; auto.
Qed.

Lemma Forall2_same {A} (R : A -> A -> Prop) (a : list A) :
  (forall x, R x x) -> Forall2 R a a.
Proof. intros H. induction a; constructor; auto. Qed.

(** What an [ingest] that returned did to the tables. *)
Lemma ingest_ok_tables (log l' : DiscoveryLog) (w w' : World) :
  ShowInventory.ingest log w = (Ok l', w') ->
  l' = set_ingested true log /\
  logs w' = save_rows l' (logs w) /\
  Forall2 same_host (discoverables w) (discoverables w').
Proof.
  unfold ShowInventory.ingest, bind, log_discoverable, lift.
  destruct (discoverable_by_id (discoverable_id log) w) as [o|]; [|discriminate].
  destruct (ShowInventory.part_of (parsed_output log)) as [[sn pn]|e];
    [|discriminate].
  simpl. intros [= <- <-]. simpl.
  split; [reflexivity | split; [reflexivity|]].
  apply Forall2_map_r with (R := eq).
  - intros x y ->. destruct (disc_id y =? disc_id o); split; reflexivity.
  - apply Forall2_same. reflexivity.
Qed.

Lemma same_host_trans (a b c : list Discoverable) :
  Forall2 same_host a b -> Forall2 same_host b c -> Forall2 same_host a c.
Proof.
  intros H. revert c. induction H as [|x y a b [H1 H2] _ IH]; intros c Hc.
  - inversion Hc. constructor.
  - inversion Hc as [|y' z b' c' [H3 H4] Hbc]; subst.
    constructor; [split; congruence | apply IH, Hbc].
Qed.

Lemma in_ids_true (i : Z) (l : list Z) : in_ids i l = true <-> In i l.
Proof.
  unfold in_ids. rewrite existsb_exists. split.
  - intros (x & Hx & E). apply Z.eqb_eq in E. subst. exact Hx.
  - intros H. exists i. split; [exact H | apply Z.eqb_refl].
Qed.

(** One turn of the loop on a log of the table whose ingestion returns. *)
Lemma replayed_step (done : list Z) (w wi w0 : World) (l l' : DiscoveryLog) :
  In l (logs w) ->
  replayed done w wi ->
  ShowInventory.ingest l wi = (Ok l', w0) ->
  replayed (log_id l :: done) w (snd (log_save (set_ingested true l') w0)).
Proof.
  intros Hin [Hrows Hhosts] Hrun.
  apply ingest_ok_tables in Hrun as (-> & Hlogs & Hh).
  assert (Hset : set_ingested true (set_ingested true l) = set_ingested true l)
    by reflexivity.
  rewrite Hset. simpl. rewrite Hlogs, save_rows_twice.
  split; [|exact (same_host_trans _ _ _ Hhosts Hh)].
  destruct (Forall2_in_l _ _ _ _ Hrows Hin) as (ri & Hri & Hid & _).
  unfold save_rows.
  assert (Hhas : has_log (log_id (set_ingested true l)) (logs wi) = true).
  { unfold has_log. apply existsb_exists. exists ri. split; [exact Hri|].
    simpl. apply Z.eqb_eq. exact Hid. }
  rewrite Hhas. apply Forall2_map_r with (R := same_row done); [|exact Hrows].
  intros r0 r (H1 & H2 & H3). simpl.
  unfold same_row, in_ids. simpl. fold (in_ids (log_id r0) done).
  rewrite H1. destruct (log_id r0 =? log_id l) eqn:E; simpl.
  - apply Z.eqb_eq in E. split; [symmetry; exact E | split];
      [discriminate | reflexivity].
  - split; [exact H1 | split; [exact H2|]].
    intros Hd. apply H3, Hd.
Qed.

Lemma count_failed_grows (f : DiscoveryLog -> M DiscoveryLog) (stop : bool)
    (ls : list DiscoveryLog) (out : list Line) (w : World) :
  (count_failed out <= count_failed (fst (snd (ingest_loop f stop ls out w))))%nat.
Proof.
  destruct (ingest_loop_out_extends f stop ls out w) as [sfx ->].
  rewrite count_failed_app. lia.
Qed.

(** A loop that returned without printing "failed". *)
Lemma replayed_loop (stop : bool) (w : World) (ls : list DiscoveryLog) :
  forall (done : list Z) (wi : World) (out out' : list Line) (w' : World),
    (forall l, In l ls -> In l (logs w)) ->
    replayed done w wi ->
    ingest_loop ShowInventory.ingest stop ls out wi = (Ok tt, (out', w')) ->
    count_failed out' = count_failed out ->
    exists done',
      replayed done' w w' /\
      forall i, in_ids i done'
                = (in_ids i done || in_ids i (map log_id ls))%bool.
Proof.
  induction ls as [|x ls IH]; intros done wi out out' w' Hsub Hinv; simpl.
  - intros [= <- <-] _. exists done. split; [exact Hinv|].
    intros i. rewrite orb_false_r. reflexivity.
  - destruct (ShowInventory.ingest x wi) as [[l'|e] w0] eqn:Ex.
    + intros Hrun Hc.
      pose proof (replayed_step done w wi w0 x l' (Hsub x (or_introl eq_refl))
                    Hinv Ex) as Hstep.
      destruct (IH _ _ _ _ _ (fun l Hl => Hsub l (or_intror Hl)) Hstep Hrun)
        as (done' & Hd & Hids).
      * rewrite Hc, !count_failed_app. simpl. unfold count_failed. simpl. lia.
      * exists done'. split; [exact Hd|]. intros i. rewrite Hids.
        unfold in_ids. simpl. rewrite !orb_assoc.
        rewrite (orb_comm (existsb (Z.eqb i) done) (i =? log_id x)).
        reflexivity.
    + destruct stop; [discriminate|]. intros Hrun Hc. exfalso.
      pose proof (count_failed_grows ShowInventory.ingest false ls
                    ((out ++ [Ingesting (log_id x) (command x) (discoverable_id x)])
                       ++ [failed_])%list w0) as Hg.
      rewrite Hrun in Hg. simpl in Hg. rewrite Hc, !count_failed_app in Hg.
      unfold count_failed in Hg. simpl in Hg. lia.
Qed.

Lemma find_same_host (i : Z) (a b : list Discoverable) :
  Forall2 same_host a b ->
  address <$> find (fun o => disc_id o =? i) b
  = address <$> find (fun o => disc_id o =? i) a.
Proof.
  induction 1 as [|x y a b [H1 H2] _ IH]; simpl; [reflexivity|].
  rewrite H1. destruct (disc_id x =? i); [simpl; congruence | exact IH].
Qed.

Lemma address_in_same (w w' : World) (fs : list string) (l : DiscoveryLog) :
  Forall2 same_host (discoverables w) (discoverables w') ->
  address_in w' fs l = address_in w fs l.
Proof.
  intros H. unfold address_in, discoverable_by_id.
  pose proof (find_same_host (discoverable_id l) _ _ H) as Hf.
  destruct (find _ (discoverables w')), (find _ (discoverables w));
    simpl in Hf; try discriminate; [|reflexivity].
  injection Hf as ->. reflexivity.
Qed.

(** X11: the replay is idempotent with the inventory ingestor: once a run
    without [REINGEST] has returned without a failure, a second run with the
    same settings finds nothing to ingest: it calls no ingestor, prints
    nothing and leaves the database as the first run left it. *)
Theorem replay_twice (cfg : Config) (w w' : World) (out' : list Line) :
  REINGEST cfg = false ->
  main ShowInventory.ingest cfg w = (Ok tt, (out', w')) ->
  count_failed out' = 0%nat ->
  queryset cfg w' = [] /\
  main ShowInventory.ingest cfg w' = (Ok tt, ([], w')).
Proof.
  intros Hre Hrun Hc. unfold main in Hrun.
  assert (Hinit : replayed [] w w).
  { split; apply Forall2_same.
    - intros r. split; [reflexivity | split; [reflexivity | discriminate]].
    - intros o. split; reflexivity. }
  destruct (replayed_loop _ w _ [] w [] out' w'
              (fun l Hl => proj1 (queryset_sound cfg w l Hl)) Hinit Hrun Hc)
    as (done' & [Hrows Hhosts] & Hids).
  assert (Hq : queryset cfg w' = []).
  { destruct (queryset cfg w') as [|l2 rest] eqn:E; [reflexivity|]. exfalso.
    assert (Hl2 : In l2 (queryset cfg w')) by (rewrite E; left; reflexivity).
    apply queryset_member in Hl2 as (Hin & Hp & Hf & Hi & Hl & Hcmd).
    destruct Hi as [Hi | Hi]; [congruence|].
    destruct (Forall2_in_r _ _ _ _ Hrows Hin) as (r0 & Hr0 & Hid & Hsame & Hing).
    destruct (in_ids (log_id r0) done') eqn:Ed.
    - rewrite (Hing eq_refl) in Hi. discriminate.
    - specialize (Hsame eq_refl). subst l2.
      assert (Hsel : In r0 (queryset cfg w)).
      { apply queryset_member.
        split; [exact Hr0 | split; [exact Hp | split; [|auto]]].
        destruct Hf as [Hf | Hf]; [left; exact Hf | right].
        rewrite <- (address_in_same w w' _ _ Hhosts). exact Hf. }
      rewrite Hids in Ed. simpl in Ed.
      assert (Ht : in_ids (log_id r0) (map log_id (queryset cfg w)) = true).
      { apply in_ids_true, in_map, Hsel. }
      rewrite Ht in Ed. discriminate. }
  split; [exact Hq|]. unfold main. rewrite Hq. reflexivity.
Qed.

Lemma replay_twice_witness :
  queryset replay_host_1
    (snd (snd (main ShowInventory.ingest replay_host_1 world_2))) = [] /\
  main ShowInventory.ingest replay_host_1
    (snd (snd (main ShowInventory.ingest replay_host_1 world_2)))
  = (Ok tt, ([], snd (snd (main ShowInventory.ingest replay_host_1 world_2)))).
Proof.
  apply (replay_twice replay_host_1 world_2
           (snd (snd (main ShowInventory.ingest replay_host_1 world_2)))
           (fst (snd (main ShowInventory.ingest replay_host_1 world_2)))).
  - reflexivity.
  - vm_compute. reflexivity.
  - vm_compute. reflexivity.
Defined.

End ScriptCoverage.

(** ** [api_query]: when it raises, what it stores *)

Section ApiQueryCoverage.

Import Vsphere VsphereTerms.

Lemma vnics_outcome (devices : list VirtualDevice) (acc : list vnic_data) :
  if existsb bad_device devices
  then vnics devices acc = Raise AttributeError
  else exists nics, vnics devices acc = Ok nics.
Proof.
  revert acc. induction devices as [|hw rest IH]; intros acc; simpl.
  - exists acc. reflexivity.
  - destruct hw as [|mac lbl conn [p|net dev|]]; simpl; try apply IH.
    reflexivity.
Qed.

Lemma vms_outcome (l : list VirtualMachine) (acc : gmap string vm_data) :
  if existsb bad_device (flat_map vm_device l)
  then vms l acc = Raise AttributeError
  else exists m, vms l acc = Ok m.
Proof.
  revert acc. induction l as [|vm rest IH]; intros acc; simpl.
  - exists acc. reflexivity.
  - rewrite existsb_app. unfold vm_data_of.
    pose proof (vnics_outcome (vm_device vm) []) as Hv.
    destruct (existsb bad_device (vm_device vm)); simpl.
    + rewrite Hv. reflexivity.
    + destruct Hv as [nics ->]. apply IH.
Qed.

Lemma host_portgroups_unfold (pgs : list HostPortGroup) (st : Locals) :
  host_portgroups pgs st = host_portgroups_from pgs (∅, st).
Proof.
  unfold host_portgroups, host_portgroups_from.
  generalize (∅ : gmap string loc, st).
  induction pgs as [|pg pgs IH]; intros acc; simpl; [reflexivity|].
  rewrite IH. destruct acc as [d s0]. reflexivity.
Qed.

Lemma host_portgroups_locals (pgs : list HostPortGroup)
    (acc : gmap string loc * Locals) :
  objects (snd (host_portgroups_from pgs acc))
  = (objects (snd acc) ++ map portgroup_record pgs)%list /\
  (locals_ok (snd acc) -> locals_ok (snd (host_portgroups_from pgs acc))) /\
  ((forall key l, fst acc !! key = Some l -> valid_ref (objects (snd acc)) key l) ->
   forall key l, fst (host_portgroups_from pgs acc) !! key = Some l ->
                 valid_ref (objects (snd (host_portgroups_from pgs acc))) key l).
Proof.
  revert acc. induction pgs as [|pg pgs IH]; intros acc.
  - simpl. rewrite app_nil_r. auto.
  - change (host_portgroups_from (pg :: pgs) acc)
      with (host_portgroups_from pgs (portgroup_step acc pg)).
    destruct (IH (portgroup_step acc pg)) as (H1 & H2 & H3).
    split; [|split].
    + rewrite H1. simpl. rewrite <- app_assoc. reflexivity.
    + intros _. apply H2. unfold locals_ok. simpl.
      rewrite length_app. simpl. lia.
    + intros Hd. apply H3. intros key l. simpl.
      destruct (decide (hpg_key pg = key)) as [<-|Hne].
      * rewrite lookup_insert_eq. intros [= <-].
        exists (portgroup_record pg).
        split; [|split; reflexivity].
        rewrite lookup_app_r by reflexivity.
        replace (length (objects acc.2) - length (objects acc.2))%nat
          with 0%nat by lia.
        reflexivity.
      * rewrite lookup_insert_ne by exact Hne. intros Hl.
        destruct (Hd key l Hl) as (pd & Hpd & Hk).
        exists pd. split; [|exact Hk].
        apply lookup_app_l_Some. exact Hpd.
Qed.

Lemma valid_ref_app (objs more : list portgroup_data) (key : string) (l : loc) :
  valid_ref objs key l -> valid_ref (objs ++ more) key l.
Proof.
  intros (pd & Hpd & Hk). exists pd. split; [|exact Hk].
  apply lookup_app_l_Some. exact Hpd.
Qed.

Lemma host_data_of_run (host : HostSystem) (st : Locals) :
  if existsb bad_device (devices_of_host host)
  then host_data_of host st = Raise AttributeError
  else exists hd,
    host_data_of host st
    = Ok (hd, snd (host_portgroups_from (host_portgroup host) (∅, st))) /\
    hd_id hd = host_str host /\
    hd_portgroups hd = fst (host_portgroups_from (host_portgroup host) (∅, st)).
Proof.
  unfold host_data_of, devices_of_host.
  pose proof (vms_outcome (host_vm host) ∅) as Hv.
  destruct (existsb bad_device (flat_map vm_device (host_vm host))).
  - rewrite Hv. reflexivity.
  - destruct Hv as [m ->]. rewrite host_portgroups_unfold.
    destruct (host_portgroups_from (host_portgroup host) (∅, st)) as [pgs st2].
    eexists. split; [reflexivity | split; reflexivity].
Qed.

(** The host loop from any dictionary and locals on. *)
Lemma hosts_loop_run (hosts : list HostSystem) (m0 : gmap string host_data)
    (st : Locals) :
  if existsb bad_device (flat_map devices_of_host hosts)
  then hosts_loop hosts m0 st = Raise AttributeError
  else exists m st',
    hosts_loop hosts m0 st = Ok (m, st') /\
    objects st'
    = (objects st ++ map portgroup_record (flat_map host_portgroup hosts))%list /\
    (locals_ok st -> locals_ok st') /\
    (refs_ok (objects st) m0 -> refs_ok (objects st') m) /\
    (forall k, is_Some (m !! k) <-> is_Some (m0 !! k) \/ In k (map host_str hosts)) /\
    (map_Forall (fun k hd => hd_id hd = k) m0 ->
     map_Forall (fun k hd => hd_id hd = k) m).
Proof.
  revert m0 st. induction hosts as [|host hosts IH]; intros m0 st; simpl.
  - exists m0, st. rewrite app_nil_r.
    split; [reflexivity | split; [reflexivity | split; [auto | split; [auto|]]]].
    split; [|auto]. intros k. tauto.
  - rewrite existsb_app. pose proof (host_data_of_run host st) as Hh.
    destruct (existsb bad_device (devices_of_host host)); simpl.
    + rewrite Hh. reflexivity.
    + destruct Hh as (hd & -> & Hid & Hpg).
      destruct (host_portgroups_locals (host_portgroup host) (∅, st))
        as (H1 & H2 & H3).
      simpl in H1, H2, H3.
      specialize (IH (<[hd_id hd := hd]> m0)
                    (snd (host_portgroups_from (host_portgroup host) (∅, st)))).
      destruct (existsb bad_device (flat_map devices_of_host hosts));
        [exact IH|].
      destruct IH as (m & st' & -> & Ho & Hl & Hr & Hk & Hi).
      exists m, st'. split; [reflexivity|].
      split; [rewrite Ho, H1, map_app, app_assoc; reflexivity|].
      split; [auto|].
      split; [|split].
      * intros Hrefs. apply Hr. apply map_Forall_insert_2.
        -- rewrite Hpg. intros key l Hkl. apply (H3 ltac:(intros ? ? H; inversion H)).
           exact Hkl.
        -- intros k h Hkh. specialize (Hrefs k h Hkh). simpl in Hrefs.
           intros key l Hkl. rewrite H1. apply valid_ref_app.
           exact (Hrefs key l Hkl).
      * intros k. rewrite Hk, Hid.
        destruct (decide (host_str host = k)) as [<-|Hne].
        -- rewrite lookup_insert_eq. split; [auto | eauto].
        -- rewrite lookup_insert_ne by exact Hne.
           split; [intros [H|H]; auto | intros [H|[H|H]]; auto; contradiction].
      * intros Hids. apply Hi. apply map_Forall_insert_2; [reflexivity | exact Hids].
Qed.

Lemma overwrite_id (vs : list Z) (pd : portgroup_data) :
  pg_id (overwrite vs pd) = pg_id pd /\
  pg_vswitch_type (overwrite vs pd) = pg_vswitch_type pd.
Proof.
  revert pd. induction vs as [|v vs IH]; intros pd; simpl; [auto|].
  destruct (IH (set_vlan v pd)) as [-> ->]. auto.
Qed.

(** The port group loop of a distributed switch when [portgroup_data] is
    bound to the object [l]. *)
Lemma dv_portgroups_run (pgs : list DVPortgroup) (dict : gmap string loc)
    (st : Locals) (l : loc) (pd0 : portgroup_data) :
  portgroup_data_var st = Some l ->
  objects st !! l = Some pd0 ->
  exists st',
    dv_portgroups pgs dict st
    = Ok (match pgs with [] => dict | _ :: _ => <[pg_id pd0 := l]> dict end, st') /\
    portgroup_data_var st' = Some l /\
    length (objects st') = length (objects st) /\
    (forall j, j <> l -> objects st' !! j = objects st !! j) /\
    objects st' !! l = Some (overwrite (vlans_of pgs) pd0).
Proof.
  revert dict st pd0. induction pgs as [|pg pgs IH]; intros dict st pd0 Hv Hl.
  - exists st. simpl. auto.
  - simpl. rewrite Hv, Hl.
    set (pd1 := if dvpg_has_vlanId pg then set_vlan (dvpg_default_vlanId pg) pd0
                else pd0).
    assert (Hid : pg_id pd1 = pg_id pd0) by (subst pd1; destruct (dvpg_has_vlanId pg); reflexivity).
    assert (Hlt : (l < length (objects st))%nat) by (eapply lookup_lt_Some; exact Hl).
    destruct (IH (<[pg_id pd1 := l]> dict)
                 (mkLocals (<[l := pd1]> (objects st)) (Some l)) pd1 eq_refl)
      as (st' & Hrun & Hv' & Hlen & Hoth & Hat).
    { simpl. apply list_lookup_insert_eq. exact Hlt. }
    exists st'. rewrite Hrun. simpl in *.
    split; [|split; [exact Hv' | split; [|split]]].
    + f_equal. f_equal. destruct pgs; rewrite Hid; [reflexivity|].
      apply insert_insert_eq.
    + rewrite Hlen. apply length_insert.
    + intros j Hj. rewrite (Hoth j Hj). apply list_lookup_insert_ne. auto.
    + rewrite Hat. f_equal. unfold vlans_of. simpl. subst pd1.
      destruct (dvpg_has_vlanId pg); reflexivity.
Qed.

Lemma dv_portgroups_unbound (pgs : list DVPortgroup) (dict : gmap string loc)
    (st : Locals) :
  portgroup_data_var st = None ->
  dv_portgroups pgs dict st
  = match pgs with [] => Ok (dict, st) | _ :: _ => Raise UnboundLocalError end.
Proof.
  intros Hv. destruct pgs; simpl; [reflexivity|]. rewrite Hv. reflexivity.
Qed.

Lemma vlans_of_app (a b : list DVPortgroup) :
  vlans_of (a ++ b) = (vlans_of a ++ vlans_of b)%list.
Proof. unfold vlans_of. rewrite List.filter_app, map_app. reflexivity. Qed.

Lemma overwrite_app (a b : list Z) (pd : portgroup_data) :
  overwrite (a ++ b) pd = overwrite b (overwrite a pd).
Proof. unfold overwrite. apply fold_left_app. Qed.

(** The loop over the distributed switches when [portgroup_data] is bound. *)
Lemma dvswitches_loop_run (all dvs : list DVSwitch)
    (m0 : gmap string dvswitch_data) (st : Locals) (l : loc)
    (pd0 : portgroup_data) :
  (forall x, In x dvs -> In x all) ->
  portgroup_data_var st = Some l ->
  objects st !! l = Some pd0 ->
  exists m st',
    dvswitches_loop dvs m0 st = Ok (m, st') /\
    length (objects st') = length (objects st) /\
    (forall j, j <> l -> objects st' !! j = objects st !! j) /\
    objects st' !! l
    = Some (overwrite (vlans_of (flat_map dvs_portgroup dvs)) pd0) /\
    (forall k, is_Some (m !! k) <-> is_Some (m0 !! k) \/ In k (map dvs_str dvs)) /\
    (entries_ok (pg_id pd0) l all m0 -> entries_ok (pg_id pd0) l all m).
Proof.
  revert m0 st pd0. induction dvs as [|x dvs IH]; intros m0 st pd0 Hsub Hv Hl.
  - exists m0, st. simpl.
    split; [reflexivity | split; [reflexivity | split; [auto | split; [exact Hl|]]]].
    split; [intros k; tauto | auto].
  - simpl.
    destruct (dv_portgroups_run (dvs_portgroup x) ∅ st l pd0 Hv Hl)
      as (st1 & -> & Hv1 & Hlen1 & Hoth1 & Hat1).
    destruct (IH (<[dvs_str x :=
                     mk_dvswitch_data (dvs_str x) (dvs_name x) (dvs_overallStatus x)
                       (match dvs_portgroup x with
                        | [] => ∅
                        | _ :: _ => <[pg_id pd0 := l]> ∅
                        end)]> m0)
                 st1 (overwrite (vlans_of (dvs_portgroup x)) pd0)
                 (fun y Hy => Hsub y (or_intror Hy)) Hv1 Hat1)
      as (m & st' & Hrun & Hlen & Hoth & Hat & Hk & He).
    exists m, st'. simpl in *. rewrite Hrun.
    split; [reflexivity | split; [congruence | split; [|split; [|split]]]].
    + intros j Hj. rewrite (Hoth j Hj). apply Hoth1, Hj.
    + rewrite Hat, vlans_of_app, overwrite_app. reflexivity.
    + intros k. rewrite Hk.
      destruct (decide (dvs_str x = k)) as [<-|Hne].
      * rewrite lookup_insert_eq. split; [auto | eauto].
      * rewrite lookup_insert_ne by exact Hne.
        split; [intros [H|H]; auto | intros [H|[H|H]]; auto; contradiction].
    + intros H0. destruct (overwrite_id (vlans_of (dvs_portgroup x)) pd0) as [Hid _].
      rewrite Hid in He. apply He. apply map_Forall_insert_2; [|exact H0].
      exists x. split; [apply Hsub; left; reflexivity | split; [reflexivity|]].
      unfold entry_of. simpl.
      split; [reflexivity | split; [reflexivity | split; [reflexivity|]]].
      destruct (dvs_portgroup x); reflexivity.
Qed.

(** The same loop when [portgroup_data] was never bound. *)
Lemma dvswitches_loop_unbound (all dvs : list DVSwitch)
    (m0 : gmap string dvswitch_data) (st : Locals) :
  (forall x, In x dvs -> In x all) ->
  portgroup_data_var st = None ->
  match flat_map dvs_portgroup dvs with
  | [] => exists m,
      dvswitches_loop dvs m0 st = Ok (m, st) /\
      (forall k, is_Some (m !! k) <-> is_Some (m0 !! k) \/ In k (map dvs_str dvs)) /\
      (forall key l, entries_ok key l all m0 -> entries_ok key l all m)
  | _ :: _ => dvswitches_loop dvs m0 st = Raise UnboundLocalError
  end.
Proof.
  revert m0. induction dvs as [|x dvs IH]; intros m0 Hsub Hv; simpl.
  - exists m0. split; [reflexivity | split; [intros k; tauto | auto]].
  - rewrite (dv_portgroups_unbound _ _ _ Hv).
    destruct (dvs_portgroup x) as [|pg pgs] eqn:Ex; simpl; [|reflexivity].
    specialize (IH (<[dvs_str x :=
                       mk_dvswitch_data (dvs_str x) (dvs_name x)
                         (dvs_overallStatus x) ∅]> m0)
                  (fun y Hy => Hsub y (or_intror Hy)) Hv).
    destruct (flat_map dvs_portgroup dvs); [|exact IH].
    destruct IH as (m & -> & Hk & He). exists m.
    split; [reflexivity | split].
    + intros k. rewrite Hk.
      destruct (decide (dvs_str x = k)) as [<-|Hne].
      * rewrite lookup_insert_eq. split; [auto | eauto].
      * rewrite lookup_insert_ne by exact Hne.
        split; [intros [H|H]; auto | intros [H|[H|H]]; auto; contradiction].
    + intros key l H0. apply He. apply map_Forall_insert_2; [|exact H0].
      exists x. split; [apply Hsub; left; reflexivity | split; [reflexivity|]].
      unfold entry_of. simpl. rewrite Ex. auto.
Qed.

Lemma lookup_map {A B} (f : A -> B) (l : list A) (i : nat) :
  map f l !! i = f <$> l !! i.
Proof.
  revert i. induction l as [|x l IH]; intros [|i]; simpl; auto.
Qed.

Lemma map_nil_inv {A B} (f : A -> B) (l : list A) : map f l = [] -> l = [].
Proof. destruct l; [reflexivity | discriminate]. Qed.


(** What a returned dictionary holds. *)
Lemma api_query_run (content : Content) (d : api_data) :
  api_query content = Ok d ->
  (forall k, is_Some (hosts_data d !! k)
             <-> In k (map host_str (view_hosts content))) /\
  map_Forall (fun k hd => hd_id hd = k) (hosts_data d) /\
  refs_ok (heap d) (hosts_data d) /\
  length (heap d) = length (host_portgroups_of content) /\
  (forall j pg,
     host_portgroups_of content !! j = Some pg ->
     heap d !! j
     = Some (if decide (S j = length (host_portgroups_of content))
             then overwrite (written_vlans content) (portgroup_record pg)
             else portgroup_record pg)) /\
  (forall k, is_Some (dvswitches_data d !! k)
             <-> In k (map dvs_str (view_dvswitches content))) /\
  match last (host_portgroups_of content) with
  | Some pg =>
      entries_ok (hpg_key pg) (length (host_portgroups_of content) - 1)%nat
        (view_dvswitches content) (dvswitches_data d)
  | None =>
      dv_portgroups_of content = [] /\
      forall key l, entries_ok key l (view_dvswitches content) (dvswitches_data d)
  end.
Proof.
  unfold api_query, host_portgroups_of, written_vlans, dv_portgroups_of.
  pose proof (hosts_loop_run (view_hosts content) ∅ (mkLocals [] None)) as Hh.
  destruct (existsb bad_device (flat_map devices_of_host (view_hosts content)));
    [rewrite Hh; discriminate|].
  destruct Hh as (m & st & -> & Ho & Hl & Hr & Hk & Hi). simpl in Ho.
  specialize (Hl eq_refl). specialize (Hr (map_Forall_empty _)).
  specialize (Hi (map_Forall_empty _)).
  assert (Hk' : forall k, is_Some (m !! k)
                          <-> In k (map host_str (view_hosts content))).
  { intros k. rewrite Hk, lookup_empty. split; [intros [[x H]|H]; [discriminate | exact H] | auto]. }
  set (hpgs := flat_map host_portgroup (view_hosts content)) in *.
  unfold locals_ok in Hl. destruct (portgroup_data_var st) as [l|] eqn:Hv.
  - assert (Hlen : S l = length hpgs) by (rewrite Hl, Ho, length_map; reflexivity).
    destruct (lookup_lt_is_Some_2 hpgs l ltac:(lia)) as [pgl Hpgl].
    assert (Hpd : objects st !! l = Some (portgroup_record pgl))
      by (rewrite Ho, lookup_map, Hpgl; reflexivity).
    destruct (dvswitches_loop_run (view_dvswitches content)
                (view_dvswitches content) ∅ st l _ (fun _ H => H) Hv Hpd)
      as (m2 & st2 & -> & Hlen2 & Hoth & Hat & Hk2 & He).
    intros [= <-]. simpl.
    split; [exact Hk' | split; [exact Hi | split; [|split; [|split; [|split]]]]].
    + intros k hd Hkhd key r Hkr. destruct (Hr k hd Hkhd key r Hkr) as (pd & Hpd' & Hid & Hty).
      destruct (decide (r = l)) as [->|Hne].
      * rewrite Hpd in Hpd'. injection Hpd' as <-.
        exists (overwrite (vlans_of (flat_map dvs_portgroup (view_dvswitches content)))
                  (portgroup_record pgl)).
        destruct (overwrite_id (vlans_of (flat_map dvs_portgroup
                    (view_dvswitches content))) (portgroup_record pgl)) as [E1 E2].
        rewrite E1, E2. auto.
      * exists pd. rewrite (Hoth r Hne). auto.
    + rewrite Hlen2, Ho, length_map. reflexivity.
    + intros j pg Hj. destruct (decide (S j = length hpgs)) as [E|E].
      * assert (j = l) by lia. subst j. rewrite Hpgl in Hj. injection Hj as <-.
        exact Hat.
      * transitivity (objects st !! j); [apply Hoth; lia|].
        rewrite Ho, lookup_map, Hj. reflexivity.
    + intros k. rewrite Hk2, lookup_empty.
      split; [intros [[x H]|H]; [discriminate | exact H] | auto].
    + rewrite last_lookup. replace (pred (length hpgs)) with l by lia.
      rewrite Hpgl. replace (length hpgs - 1)%nat with l by lia.
      apply He. apply map_Forall_empty.
  - rewrite Hl in Ho. symmetry in Ho. apply map_nil_inv in Ho.
    pose proof (dvswitches_loop_unbound (view_dvswitches content)
                  (view_dvswitches content) ∅ st (fun _ H => H) Hv) as Hd.
    destruct (flat_map dvs_portgroup (view_dvswitches content));
      [|rewrite Hd; discriminate].
    destruct Hd as (m2 & -> & Hk2 & He). intros [= <-]. simpl.
    rewrite Ho. simpl.
    split; [exact Hk' | split; [exact Hi | split; [|split; [|split; [|split]]]]].
    + rewrite Hl. intros k hd Hkhd key r Hkr.
      destruct (Hr k hd Hkhd key r Hkr) as (pd & Hpd' & _).
      rewrite Hl in Hpd'. discriminate.
    + rewrite Hl. reflexivity.
    + intros j pg Hj. discriminate.
    + intros k. rewrite Hk2, lookup_empty.
      split; [intros [[x H]|H]; [discriminate | exact H] | auto].
    + split; [reflexivity|]. intros key l. apply He. apply map_Forall_empty.
Qed.

Lemma last_default {A} (x : A) (l : list A) (d d' : A) :
  List.last (x :: l) d = List.last (x :: l) d'.
Proof.
  revert x. induction l as [|y l IH]; intros x; [reflexivity|].
  change (List.last (y :: l) d = List.last (y :: l) d'). apply IH.
Qed.

Lemma overwrite_last (vs : list Z) (pd : portgroup_data) :
  overwrite vs pd = set_vlan (List.last vs (pg_vlan pd)) pd.
Proof.
  revert pd. induction vs as [|v vs IH]; intros pd.
  - destruct pd; reflexivity.
  - change (overwrite (v :: vs) pd) with (overwrite vs (set_vlan v pd)).
    rewrite IH. destruct vs as [|v2 vs]; [reflexivity|].
    change (List.last (v :: v2 :: vs) (pg_vlan pd))
      with (List.last (v2 :: vs) (pg_vlan pd)).
    rewrite (last_default v2 vs (pg_vlan (set_vlan v pd)) (pg_vlan pd)).
    reflexivity.
Qed.

(** X13: the entry of a distributed switch never holds a record of one of
    its own port groups.  It is stored under the switch's id with its name
    and status; its port group dictionary is empty when the switch has no
    port group, and otherwise holds one reference, to the dictionary of the
    last host port group the host loop met, under that host port group's
    key. *)
Theorem dvswitch_entry_holds_host_portgroup
    (content : Content) (d : api_data) (id : string) (e : dvswitch_data) :
  api_query content = Ok d ->
  dvswitches_data d !! id = Some e ->
  exists dvs,
    In dvs (view_dvswitches content) /\ dvs_str dvs = id /\
    dvd_id e = id /\ dvd_name e = dvs_name dvs /\
    dvd_status e = dvs_overallStatus dvs /\
    match dvs_portgroup dvs with
    | [] => dvd_portgroups e = ∅
    | _ :: _ =>
        exists pg,
          last (host_portgroups_of content) = Some pg /\
          dvd_portgroups e
          = {[ hpg_key pg := (length (host_portgroups_of content) - 1)%nat ]} /\
          shown (heap d) (dvd_portgroups e)
          = {[ hpg_key pg :=
                 set_vlan (List.last (written_vlans content) (hpg_spec_vlanId pg))
                   (portgroup_record pg) ]}
    end.
Proof.
  intros Hq He.
  destruct (api_query_run content d Hq) as (_ & _ & _ & Hlen & Hheap & _ & Hent).
  destruct (last (host_portgroups_of content)) as [pg|] eqn:Hlast.
  - destruct (Hent id e He) as (dvs & Hin & Hid & E1 & E2 & E3 & E4).
    exists dvs. rewrite E1, E2, E3, Hid.
    split; [exact Hin | split; [reflexivity | split; [reflexivity|]]].
    split; [reflexivity | split; [reflexivity|]].
    destruct (dvs_portgroup dvs); [exact E4|].
    exists pg. split; [reflexivity | split; [exact E4|]].
    rewrite E4. unfold shown. apply omap_singleton_Some.
    rewrite last_lookup in Hlast.
    assert (Hpos : (0 < length (host_portgroups_of content))%nat).
    { destruct (host_portgroups_of content); [discriminate | simpl; lia]. }
    replace (pred (length (host_portgroups_of content)))
      with (length (host_portgroups_of content) - 1)%nat in Hlast by lia.
    pose proof (Hheap _ pg Hlast) as Hh.
    destruct (decide (S (length (host_portgroups_of content) - 1)
                      = length (host_portgroups_of content))); [|lia].
    rewrite overwrite_last in Hh. exact Hh.
  - destruct Hent as [Hdv Hent].
    destruct (Hent "" 0%nat id e He) as (dvs & Hin & Hid & E1 & E2 & E3 & E4).
    exists dvs. rewrite E1, E2, E3, Hid.
    split; [exact Hin | split; [reflexivity | split; [reflexivity|]]].
    split; [reflexivity | split; [reflexivity|]].
    assert (Hnone : dvs_portgroup dvs = []).
    { unfold dv_portgroups_of in Hdv.
      destruct (dvs_portgroup dvs) as [|pg pgs] eqn:Epg; [reflexivity|].
      assert (Hin2 : In pg (flat_map dvs_portgroup (view_dvswitches content))).
      { apply in_flat_map. exists dvs. split; [exact Hin|].
        rewrite Epg. left. reflexivity. }
      rewrite Hdv in Hin2. contradiction. }
    rewrite Hnone in *. exact E4.
Qed.

Lemma dvswitch_entry_holds_host_portgroup_witness :
  exists e dvs,
    vlan_switch = Some e /\
    In dvs (view_dvswitches vcenter_vlan) /\
    dvs_str dvs = "'vim.dvs.VmwareDistributedVirtualSwitch:dvs-21'" /\
    dvd_id e = "'vim.dvs.VmwareDistributedVirtualSwitch:dvs-21'" /\
    dvd_name e = dvs_name dvs /\
    dvd_status e = dvs_overallStatus dvs /\
    match dvs_portgroup dvs with
    | [] => dvd_portgroups e = ∅
    | _ :: _ =>
        exists pg,
          last (host_portgroups_of vcenter_vlan) = Some pg /\
          dvd_portgroups e
          = {[ hpg_key pg := (length (host_portgroups_of vcenter_vlan) - 1)%nat ]} /\
          shown (heap vlan_result) (dvd_portgroups e)
          = {[ hpg_key pg :=
                 set_vlan (List.last (written_vlans vcenter_vlan)
                             (hpg_spec_vlanId pg))
                   (portgroup_record pg) ]}
    end.
Proof.
  eexists.
  assert (H : forall (P : DVSwitch -> Prop) (A : Prop),
              A -> (exists dvs, P dvs) -> exists dvs, A /\ P dvs).
  { intros P A a [x Hx]. exists x. split; assumption. }
  apply H.
  - vm_compute. reflexivity.
  - apply (dvswitch_entry_holds_host_portgroup vcenter_vlan vlan_result).
    + vm_compute. reflexivity.
    + vm_compute. reflexivity.
Defined.

(** X14: the returned dictionaries have one entry for each id: a host id is
    a key of "hosts" exactly when some host of the view has it, and the
    entry under a key carries that key as its id; the same holds for
    "dvswitches". *)
Theorem api_query_keys (content : Content) (d : api_data) :
  api_query content = Ok d ->
  (forall k, is_Some (hosts_data d !! k)
             <-> In k (map host_str (view_hosts content))) /\
  (forall k hd, hosts_data d !! k = Some hd -> hd_id hd = k) /\
  (forall k, is_Some (dvswitches_data d !! k)
             <-> In k (map dvs_str (view_dvswitches content))) /\
  (forall k e, dvswitches_data d !! k = Some e -> dvd_id e = k).
Proof.
  intros Hq.
  destruct (api_query_run content d Hq) as (H1 & H2 & _ & _ & _ & H3 & Hent).
  split; [exact H1 | split; [exact H2 | split; [exact H3|]]].
  intros k e He.
  destruct (last (host_portgroups_of content)) as [pg|].
  - destruct (Hent k e He) as (dvs & _ & Hid & E1 & _). congruence.
  - destruct Hent as [_ Hent].
    destruct (Hent "" 0%nat k e He) as (dvs & _ & Hid & E1 & _). congruence.
Qed.

(** X15: no reference of a host entry dangles: each key of the "portgroups"
    dictionary of a host refers to a host port group dictionary whose id is
    that key, also after the loop over the distributed switches has
    written to the store. *)
Theorem host_portgroup_refs_valid
    (content : Content) (d : api_data) (k key : string) (hd : host_data)
    (l : loc) :
  api_query content = Ok d ->
  hosts_data d !! k = Some hd ->
  hd_portgroups hd !! key = Some l ->
  exists pd,
    heap d !! l = Some pd /\ pg_id pd = key /\ pg_vswitch_type pd = "vswitch" /\
    shown (heap d) (hd_portgroups hd) !! key = Some pd.
Proof.
  intros Hq Hk Hl.
  destruct (api_query_run content d Hq) as (_ & _ & Hr & _).
  destruct (Hr k hd Hk key l Hl) as (pd & Hpd & Hid & Hty).
  exists pd. split; [exact Hpd | split; [exact Hid | split; [exact Hty|]]].
  unfold shown. rewrite lookup_omap, Hl. exact Hpd.
Qed.

(** X16: what the loop over the distributed switches does to the host port
    groups: the store holds one dictionary for each host port group, in the
    order the host loop met them, each as line 145 built it, but the last:
    its "vlan" is the VLAN id of the last distributed port group that has
    an attribute [vlanId], when there is one. *)
Theorem heap_after_dvswitches (content : Content) (d : api_data) :
  api_query content = Ok d ->
  length (heap d) = length (host_portgroups_of content) /\
  forall (j : nat) pg,
    host_portgroups_of content !! j = Some pg ->
    heap d !! j
    = Some (if decide (S j = length (host_portgroups_of content))
            then set_vlan (List.last (written_vlans content) (hpg_spec_vlanId pg))
                   (portgroup_record pg)
            else portgroup_record pg).
Proof.
  intros Hq.
  destruct (api_query_run content d Hq) as (_ & _ & _ & Hlen & Hheap & _).
  split; [exact Hlen|]. intros j pg Hj. rewrite (Hheap j pg Hj).
  destruct (decide (S j = length (host_portgroups_of content))); [|reflexivity].
  rewrite overwrite_last. reflexivity.
Qed.

Lemma vnics_order (devices : list VirtualDevice) (acc nics : list vnic_data) :
  vnics devices acc = Ok nics ->
  exists new,
    nics = (acc ++ new)%list /\
    Forall2 (fun hw n => vnic_of hw = Ok (Some n))
      (List.filter is_card devices) new.
Proof.
  revert acc. induction devices as [|hw rest IH]; intros acc; simpl.
  - intros [= <-]. exists []. rewrite app_nil_r. split; [reflexivity | constructor].
  - destruct (vnic_of hw) as [[n|]|e] eqn:E; [| |discriminate].
    + intros H. destruct (IH _ H) as (new & -> & Hnew).
      exists (n :: new). rewrite <- app_assoc. split; [reflexivity|].
      destruct hw; [discriminate|]. simpl. constructor; assumption.
    + intros H. destruct (IH _ H) as (new & -> & Hnew).
      exists new. split; [reflexivity|].
      destruct hw as [|mac lbl conn [p|net dev|]]; try discriminate. exact Hnew.
Qed.

(** X17: the "nics" of a virtual machine are the records of its devices that
    have a MAC address, one for each and in the order of the devices; a
    device without one is skipped.  The other fields of the entry are those
    of the virtual machine. *)
Theorem vm_nics_in_order (vm : VirtualMachine) (vd : vm_data) :
  vm_data_of vm = Ok vd ->
  Forall2 (fun hw n => vnic_of hw = Ok (Some n))
    (List.filter is_card (vm_device vm)) (vmd_nics vd) /\
  length (vmd_nics vd) = length (List.filter is_card (vm_device vm)) /\
  vmd_id vd = vm_str vm /\ vmd_name vd = vm_name vm /\
  hostname (vmd_guest vd) = vm_hostName vm /\
  guest_address (vmd_guest vd) = vm_ipAddress vm.
Proof.
  unfold vm_data_of.
  destruct (vnics (vm_device vm) []) as [nics|e] eqn:E; [|discriminate].
  intros [= <-]. simpl.
  destruct (vnics_order _ _ _ E) as (new & -> & Hnew). simpl.
  split; [exact Hnew | split; [|auto]].
  symmetry. eapply Forall2_length. exact Hnew.
Qed.

End ApiQueryCoverage.

Section ApiQuerySamples.

Import Vsphere VsphereTerms.

Lemma api_query_keys_witness :
  exists d,
    api_query vcenter_vlan = Ok d /\
    (forall k, is_Some (hosts_data d !! k)
               <-> In k (map host_str (view_hosts vcenter_vlan))) /\
    (forall k hd, hosts_data d !! k = Some hd -> hd_id hd = k) /\
    (forall k, is_Some (dvswitches_data d !! k)
               <-> In k (map dvs_str (view_dvswitches vcenter_vlan))) /\
    (forall k e, dvswitches_data d !! k = Some e -> dvd_id e = k).
Proof.
  eexists. split; [vm_compute; reflexivity|].
  apply (api_query_keys vcenter_vlan). vm_compute. reflexivity.
Defined.

Lemma host_portgroup_refs_valid_witness :
  exists hd pd,
    vlan_host = Some hd /\
    heap vlan_result !! 1%nat = Some pd /\
    pg_id pd = "key-vim.host.PortGroup-VM Network" /\
    pg_vswitch_type pd = "vswitch" /\
    shown (heap vlan_result) (hd_portgroups hd)
      !! "key-vim.host.PortGroup-VM Network" = Some pd.
Proof.
  eexists.
  assert (H : forall (P : portgroup_data -> Prop) (A : Prop),
              A -> (exists pd, P pd) -> exists pd, A /\ P pd).
  { intros P A a [x Hx]. exists x. split; assumption. }
  apply H.
  - vm_compute. reflexivity.
  - apply (host_portgroup_refs_valid vcenter_vlan vlan_result
             "'vim.HostSystem:host-9'" "key-vim.host.PortGroup-VM Network").
    + vm_compute. reflexivity.
    + vm_compute. reflexivity.
    + vm_compute. reflexivity.
Defined.

Lemma heap_after_dvswitches_witness :
  exists d,
    api_query vcenter_vlan = Ok d /\
    length (heap d) = length (host_portgroups_of vcenter_vlan) /\
    forall (j : nat) pg,
      host_portgroups_of vcenter_vlan !! j = Some pg ->
      heap d !! j
      = Some (if decide (S j = length (host_portgroups_of vcenter_vlan))
              then set_vlan (List.last (written_vlans vcenter_vlan)
                               (hpg_spec_vlanId pg))
                     (portgroup_record pg)
              else portgroup_record pg).
Proof.
  eexists. split; [vm_compute; reflexivity|].
  apply (heap_after_dvswitches vcenter_vlan). vm_compute. reflexivity.
Defined.

Lemma vm_nics_in_order_witness :
  exists vd,
    vm_data_of Examples.vm_web = Ok vd /\
    Forall2 (fun hw n => vnic_of hw = Ok (Some n))
      (List.filter is_card (vm_device Examples.vm_web)) (vmd_nics vd) /\
    length (vmd_nics vd) = length (List.filter is_card (vm_device Examples.vm_web)) /\
    vmd_id vd = vm_str Examples.vm_web /\ vmd_name vd = vm_name Examples.vm_web /\
    hostname (vmd_guest vd) = vm_hostName Examples.vm_web /\
    guest_address (vmd_guest vd) = vm_ipAddress Examples.vm_web.
Proof.
  eexists. split; [vm_compute; reflexivity|].
  apply (vm_nics_in_order Examples.vm_web). vm_compute. reflexivity.
Defined.

End ApiQuerySamples.

(** ** [discovery]: what a run depends on, and how it fails *)

Section DiscoveryCoverage.

Import Vsphere DiscoveryTerms.

Variable Payload : Type.
Variable json_dumps : Payload -> string.
Variable json_loads : string -> option Details.

Lemma for_each_queries (rs : list (Result Payload)) (st : Lists) (w : World) :
  for_each (record_result json_dumps json_loads) rs st w
  = for_each (record_result json_dumps json_loads) (List.filter is_query rs) st w.
Proof.
  revert st w. induction rs as [|r rs IH]; intros st w; simpl; [reflexivity|].
  destruct (is_query r) eqn:E; simpl; unfold bind.
  - destruct (record_result json_dumps json_loads r st w) as [[s'|e] w'];
      [apply IH | reflexivity].
  - rewrite (record_result_wrapper _ json_dumps json_loads r st w E). apply IH.
Qed.

Lemma discovery_queries (agg : list (string * list (Result Payload))) (w : World) :
  discovery json_dumps json_loads agg w
  = bind (for_each (record_result json_dumps json_loads) (queries agg) ([], []))
         (fun st => mark_hosts (fst st) (snd st)) w.
Proof.
  unfold discovery, bind, queries. rewrite for_each_concat, for_each_queries.
  reflexivity.
Qed.

(** X18: a run depends on the results of the queries only: two collections
    of results with the same query results, in the same order, give the
    same run, whatever their keys and their task wrapper entries. *)
Theorem discovery_ignores_wrappers
    (agg agg' : list (string * list (Result Payload))) (w : World) :
  queries agg = queries agg' ->
  discovery json_dumps json_loads agg w = discovery json_dumps json_loads agg' w.
Proof.
  intros H. rewrite !discovery_queries, H. reflexivity.
Qed.

(** The recording loop either records every result or raises at the first
    one it cannot record. *)
Lemma record_all_cases (rs : list (Result Payload)) (st : Lists) (w : World) :
  (Forall (resolvable json_loads w) (List.filter is_query rs)) \/
  (~ Forall (resolvable json_loads w) (List.filter is_query rs) /\
   exists e new,
     for_each (record_result json_dumps json_loads) rs st w
     = (Raise e, mkWorld (discoverables w) (logs w ++ new)) /\
     (e = JSONDecodeError \/ e = AttributeError)).
Proof.
  revert st w. induction rs as [|r rs IH]; intros st w; simpl.
  - left. constructor.
  - destruct (is_query r) eqn:Eq.
    + destruct (json_loads (r_name r)) as [d|] eqn:Ed.
      * destruct (find (fun o => String.eqb (address o) (r_hostname r))
                    (discoverables w)) as [o|] eqn:Eo.
        -- unfold bind. rewrite (record_result_query _ json_dumps json_loads
                                   r st w o d Eq Eo Ed).
           destruct (IH (track [r] st)
                       (mkWorld (discoverables w)
                          (logs w ++ [mkLog (next_log_id (logs w)) (disc_id o)
                             (det_command d) (det_template d) (det_order d)
                             (json_dumps (r_result r)) d false [] false])))
             as [Hall | (Hn & e & new & Hrun & He)].
           ++ left. constructor; [|exact Hall]. split; [rewrite Eo | rewrite Ed]; eauto.
           ++ right. split.
              ** intros H. apply Hn. apply Forall_cons in H as [_ H]. exact H.
              ** exists e. eexists. rewrite Hrun. simpl. rewrite <- app_assoc.
                 split; [reflexivity | exact He].
        -- right. split.
           ++ intros H. apply Forall_cons in H as [[[x Hx] _] _].
              rewrite Eo in Hx. discriminate.
           ++ exists AttributeError, []. rewrite app_nil_r. split; [|auto].
              unfold bind, record_result, is_query in *. destruct st as [hl fl].
              destruct (String.eqb (r_name r) "multiple_tasks"); [discriminate|].
              unfold bind, discoverable_get, gets, lift. rewrite Eo, Ed.
              destruct w; reflexivity.
      * right. split.
        -- intros H. apply Forall_cons in H as [[_ [x Hx]] _].
           rewrite Ed in Hx. discriminate.
        -- exists JSONDecodeError, []. rewrite app_nil_r. split; [|auto].
           unfold bind, record_result, is_query in *. destruct st as [hl fl].
           destruct (String.eqb (r_name r) "multiple_tasks"); [discriminate|].
           unfold bind, discoverable_get, gets, lift. rewrite Ed.
           destruct w; reflexivity.
    + unfold bind. rewrite (record_result_wrapper _ json_dumps json_loads r st w Eq).
      apply IH.
Qed.

(** X19: a run returns exactly when every query result can be recorded: its
    host is a Discoverable and its name is the text of a details
    dictionary.  Otherwise it raises at the first result that cannot be,
    [JSONDecodeError] or [AttributeError], before the marking loop: no
    Discoverable is marked, not even the hosts whose queries all succeeded;
    the logs created before the raise stay. *)
Theorem discovery_outcome
    (agg : list (string * list (Result Payload))) (w : World) :
  (fst (discovery json_dumps json_loads agg w) = Ok tt
   <-> Forall (resolvable json_loads w) (queries agg)) /\
  (forall e w',
     discovery json_dumps json_loads agg w = (Raise e, w') ->
     discoverables w' = discoverables w /\
     (exists new, logs w' = (logs w ++ new)%list) /\
     (e = JSONDecodeError \/ e = AttributeError)).
Proof.
  assert (Hall : Forall (resolvable json_loads w) (queries agg) ->
                 fst (discovery json_dumps json_loads agg w) = Ok tt).
  { intros H. destruct (discovery_run _ json_dumps json_loads agg w H)
      as (new & -> & _). reflexivity. }
  destruct (record_all_cases (concat (map snd agg)) ([], []) w)
    as [H | (Hn & e & new & Hrun & He)].
  - split; [split; [intros _; exact H | exact Hall]|].
    intros e w' Hr. specialize (Hall H). rewrite Hr in Hall. discriminate.
  - assert (Hd : discovery json_dumps json_loads agg w
                 = (Raise e, mkWorld (discoverables w) (logs w ++ new))).
    { unfold discovery, bind. rewrite for_each_concat, Hrun. reflexivity. }
    split.
    + rewrite Hd. simpl. split; [discriminate | intros H; contradiction].
    + intros e' w' Hr. rewrite Hd in Hr. injection Hr as <- <-. simpl.
      split; [reflexivity | split; [eauto | exact He]].
Qed.

Lemma marked_only (hl fl : list string) (o : Discoverable) :
  only_marked o (marked hl fl o).
Proof.
  unfold marked, only_marked.
  destruct (in_list (address o) hl && negb (in_list (address o) fl))%bool;
    simpl; auto.
Qed.

(** X20: whatever the results and however the run ends, it only appends to
    the log store and only sets flags: the logs there were are kept as they
    were and in place, and each Discoverable keeps its id, its address and
    its Device, and its [discovered] flag when that was set. *)
Theorem discovery_frame
    (agg : list (string * list (Result Payload))) (w : World) :
  (exists new, logs (snd (discovery json_dumps json_loads agg w))
               = (logs w ++ new)%list) /\
  Forall2 only_marked (discoverables w)
    (discoverables (snd (discovery json_dumps json_loads agg w))).
Proof.
  destruct (record_all_cases (concat (map snd agg)) ([], []) w)
    as [H | (Hn & e & new & Hrun & He)].
  - destruct (discovery_run _ json_dumps json_loads agg w H) as (new & -> & _).
    simpl. split; [eauto|].
    apply Forall2_map_r with (R := eq).
    + intros x y ->. apply marked_only.
    + apply Forall2_same. reflexivity.
  - assert (Hd : discovery json_dumps json_loads agg w
                 = (Raise e, mkWorld (discoverables w) (logs w ++ new))).
    { unfold discovery, bind. rewrite for_each_concat, Hrun. reflexivity. }
    rewrite Hd. simpl. split; [eauto|].
    apply Forall2_same. intros o. unfold only_marked. auto.
Qed.

Lemma nodup_add_once (a : string) (l : list string) :
  List.NoDup l -> List.NoDup (add_once a l).
Proof.
  unfold add_once. destruct (in_list a l) eqn:E; simpl; [auto|].
  intros H. assert (Hn : ~ In a l).
  { intros Hin. apply existsb_in_list in Hin. congruence. }
  clear E. induction H as [|x l Hx Hl IH]; simpl.
  - constructor; [intros [] | constructor].
  - constructor.
    + intros Hin. apply in_app_or in Hin as [Hin | [-> | []]].
      * contradiction.
      * apply Hn. left. reflexivity.
    + apply IH. intros Hin. apply Hn. right. exact Hin.
Qed.

Lemma nodup_track (qs : list (Result Payload)) (st : Lists) :
  List.NoDup (fst st) -> List.NoDup (snd st) ->
  List.NoDup (fst (track qs st)) /\ List.NoDup (snd (track qs st)).
Proof.
  revert st. induction qs as [|r qs IH]; intros st H1 H2; [auto|].
  change (track (r :: qs) st) with (track qs (track [r] st)).
  apply IH; unfold track; simpl.
  - apply nodup_add_once, H1.
  - destruct (r_failed r); [apply nodup_add_once|]; exact H2.
Qed.

(** X21: the two lists the recording loop keeps: when the loop returns,
    [host_list] holds each host that has a query result once,
    [failed_host_list] holds each host that has a failed query result once,
    and every host of [failed_host_list] is in [host_list]. *)
Theorem host_lists_invariant
    (agg : list (string * list (Result Payload))) (w w' : World)
    (host_list failed_host_list : list string) :
  for_each (fun kv st => for_each (record_result json_dumps json_loads) (snd kv) st)
    agg ([], []) w
  = (Ok (host_list, failed_host_list), w') ->
  List.NoDup host_list /\ List.NoDup failed_host_list /\
  (forall a, In a host_list <-> seen a (queries agg) = true) /\
  (forall a, In a failed_host_list <-> failed_for a (queries agg) = true) /\
  (forall a, In a failed_host_list -> In a host_list).
Proof.
  rewrite for_each_concat. intros Hrun.
  destruct (record_all_cases (concat (map snd agg)) ([], []) w)
    as [H | (_ & e & new & Hr & _)]; [|rewrite Hr in Hrun; discriminate].
  destruct (record_all _ json_dumps json_loads _ ([], []) w H) as (new & Hr & _).
  rewrite Hr in Hrun. injection Hrun as Hst _.
  fold (queries agg) in Hst.
  destruct (nodup_track (queries agg) ([], []) (List.NoDup_nil _) (List.NoDup_nil _))
    as [N1 N2].
  assert (Hs : forall a, In a host_list <-> seen a (queries agg) = true).
  { intros a. rewrite <- existsb_in_list.
    destruct (in_list_track _ a (queries agg) ([], [])) as [E _].
    rewrite Hst in E. simpl in E. rewrite E. reflexivity. }
  assert (Hf : forall a, In a failed_host_list
                         <-> failed_for a (queries agg) = true).
  { intros a. rewrite <- existsb_in_list.
    destruct (in_list_track _ a (queries agg) ([], [])) as [_ E].
    rewrite Hst in E. simpl in E. rewrite E. reflexivity. }
  rewrite Hst in N1, N2. simpl in N1, N2.
  split; [exact N1 | split; [exact N2 | split; [exact Hs | split; [exact Hf|]]]].
  intros a Ha. apply Hs. apply Hf in Ha.
  unfold failed_for, seen in *. apply existsb_exists in Ha as (r & Hr1 & Hr2).
  apply existsb_exists. exists r. split; [exact Hr1|].
  apply andb_true_iff in Hr2 as [Hr2 _]. exact Hr2.
Qed.

End DiscoveryCoverage.

Section DiscoveryCoverageSamples.

Import Vsphere DiscoveryTerms.

Lemma discovery_ignores_wrappers_witness :
  discovery Examples.dumps Examples.loads Examples.run_mixed Examples.world_0
  = discovery Examples.dumps Examples.loads run_plain Examples.world_0.
Proof.
  apply (discovery_ignores_wrappers string Examples.dumps Examples.loads
           Examples.run_mixed run_plain Examples.world_0).
  vm_compute. reflexivity.
Defined.

Lemma host_lists_invariant_witness :
  List.NoDup ["10.0.0.1"; "10.0.0.2"] /\ List.NoDup ["10.0.0.1"] /\
  (forall a, In a ["10.0.0.1"; "10.0.0.2"]
             <-> seen a (queries Examples.run_mixed) = true) /\
  (forall a, In a ["10.0.0.1"]
             <-> failed_for a (queries Examples.run_mixed) = true) /\
  (forall a, In a ["10.0.0.1"] -> In a ["10.0.0.1"; "10.0.0.2"]).
Proof.
  apply (host_lists_invariant string Examples.dumps Examples.loads
           Examples.run_mixed Examples.world_0
           (snd (for_each
                   (fun kv st =>
                      for_each (record_result Examples.dumps Examples.loads)
                        (snd kv) st)
                   Examples.run_mixed ([], []) Examples.world_0))).
  vm_compute. reflexivity.
Defined.

(** The run with a host that is no Discoverable raises and marks nothing,
    though the query of 10.0.0.2 succeeded and is logged. *)
Lemma run_stranger_raises :
  exists w',
    discovery Examples.dumps Examples.loads run_stranger Examples.world_0
    = (Raise AttributeError, w') /\
    discoverables w' = discoverables Examples.world_0 /\
    length (logs w') = 1%nat.
Proof. eexists. vm_compute. repeat split. Qed.

End DiscoveryCoverageSamples.
